(** * mongui: page / focus orchestration, input bar and data access

    A shallow embedding of

    - [internal/tui/core/app.go] and [internal/tui/core/pages.go]
      (module [core]): the application object with its single
      [previousFocus] field and the wrappers around the toolkit's pages;
    - the input bar component (module [component]): enable flag, history
      file, blocking event listener;
    - the data-access object (module [mongo]).

    The terminal toolkit, the event manager, the configuration loader and
    the database driver are collaborators whose code is not part of the
    embedded files; module [tview] and the small models at the head of the
    other modules state the behaviour the embedded code relies on. *)

From Stdlib Require Import List String Ascii Bool Arith ZArith Lia.
Import ListNotations.
Open Scope string_scope.
Open Scope bool_scope.

(* ================================================================== *)
(** ** The toolkit: primitives, application focus, pages               *)
(* ================================================================== *)

(** The toolkit is a library of its own.  What the application relies
    on is stated here: which primitive has the focus, how a container
    hands the focus on, and how the pages add, remove and focus their
    items ([Pages.AddPage], [Pages.RemovePage], [Pages.Focus],
    [Pages.HasFocus], [Application.SetFocus]). *)

Module tview.

Definition Identifier := string.

(** A primitive is a box with an identifier; a container (a flex) holds
    items, each with the flag saying whether the item takes the focus
    when the container is focused.  A leaf has no items. *)
#[warnings="-register-all"]
Inductive Primitive : Type :=
| Prim (id : Identifier) (items : list (Primitive * bool)).

(** Induction that reaches the items of a container. *)
Fixpoint Primitive_items_ind (P : Primitive -> Prop)
    (step : forall id items,
        Forall (fun it => P (fst it)) items -> P (Prim id items))
    (p : Primitive) {struct p} : P p :=
  match p with
  | Prim id items =>
      step id items
        ((fix all (l : list (Primitive * bool))
            : Forall (fun it => P (fst it)) l :=
            match l with
            | [] => Forall_nil _
            | (c, b) :: r =>
                Forall_cons (c, b) (Primitive_items_ind P step c) (all r)
            end) items)
  end.

Definition GetIdentifier (p : Primitive) : Identifier :=
  match p with Prim id _ => id end.

(** [Focus]: a container hands the focus to its first item flagged for
    it, a primitive without such an item keeps it. *)
Fixpoint focusTarget (p : Primitive) : Primitive :=
  match p with
  | Prim id items =>
      let fix first (l : list (Primitive * bool)) : option Primitive :=
        match l with
        | [] => None
        | (c, true) :: _ => Some (focusTarget c)
        | (_, false) :: r => first r
        end in
      match first items with
      | Some t => t
      | None => p
      end
  end.

(** The inner loop of [focusTarget], by itself. *)
Definition firstFocus (items : list (Primitive * bool)) : option Primitive :=
  (fix first (l : list (Primitive * bool)) : option Primitive :=
     match l with
     | [] => None
     | (c, true) :: _ => Some (focusTarget c)
     | (_, false) :: r => first r
     end) items.

(** Does the primitive named [id] sit in [p] (an item, or [p] itself)? *)
Fixpoint holds (id : Identifier) (p : Primitive) : bool :=
  match p with
  | Prim i items =>
      (fix any (l : list (Primitive * bool)) : bool :=
         match l with
         | [] => false
         | (c, _) :: r => holds id c || any r
         end) items
      || String.eqb i id
  end.

(** The inner loop of [holds], by itself. *)
Definition anyHolds (id : Identifier) (items : list (Primitive * bool)) : bool :=
  (fix any (l : list (Primitive * bool)) : bool :=
     match l with
     | [] => false
     | (c, _) :: r => holds id c || any r
     end) items.

(** The application: the primitive that has the input focus, if any. *)
Record Application : Type := { focus : option Primitive }.

Definition NewApplication : Application := {| focus := None |}.

Definition GetFocus (a : Application) : option Primitive := focus a.

(** [Application.SetFocus(p)]: [p] is focused and delegates. *)
Definition SetFocus (p : Primitive) (a : Application) : Application :=
  {| focus := Some (focusTarget p) |}.

(** [p.HasFocus()]: the focused primitive is [p] or one of its items.
    Identifiers are unique among the primitives of a process, so a
    primitive is known by its identifier. *)
Definition HasFocus (a : Application) (p : Primitive) : bool :=
  match focus a with
  | Some f => holds (GetIdentifier f) p
  | None => false
  end.

Record page : Type :=
  { Name : string; Item : Primitive; Resize : bool; Visible : bool }.

(** [setFocus] says whether the pages hold the delegate they were given
    when they were focused (it is nil on fresh pages). *)
Record Pages : Type := { pages : list page; setFocus : bool }.

Definition NewPages : Pages := {| pages := []; setFocus := false |}.

Definition withPages (ps : list page) (p : Pages) : Pages :=
  {| pages := ps; setFocus := setFocus p |}.

Definition PagesHasFocus (a : Application) (p : Pages) : bool :=
  existsb (fun pg => HasFocus a (Item pg)) (pages p).

Definition HasPage (name : string) (p : Pages) : bool :=
  existsb (fun pg => String.eqb (Name pg) name) (pages p).

Definition names (ps : list page) : list string := map Name ps.

(** The item of the last visible page. *)
Fixpoint topItem (ps : list page) : option Primitive :=
  match ps with
  | [] => None
  | pg :: r =>
      match topItem r with
      | Some t => Some t
      | None => if Visible pg then Some (Item pg) else None
      end
  end.

(** [Pages.Focus(delegate)]: without a delegate nothing happens,
    otherwise the top visible item is focused. *)
Definition PagesFocus (a : Application) (p : Pages) : Application :=
  if setFocus p then
    match topItem (pages p) with
    | Some t => SetFocus t a
    | None => a
    end
  else a.

(** The first page called [name] is dropped (the loop breaks there). *)
Fixpoint dropPage (name : string) (ps : list page) : list page :=
  match ps with
  | [] => []
  | pg :: r => if String.eqb (Name pg) name then r else pg :: dropPage name r
  end.

Fixpoint findPage (name : string) (ps : list page) : option page :=
  match ps with
  | [] => None
  | pg :: r => if String.eqb (Name pg) name then Some pg else findPage name r
  end.

Definition show (pg : page) : page :=
  {| Name := Name pg; Item := Item pg; Resize := Resize pg; Visible := true |}.

(** After a visible page is gone: if no page before the last is visible,
    the last one becomes visible. *)
Fixpoint ensureVisible (ps : list page) : list page :=
  match ps with
  | [] => []
  | [pg] => [show pg]
  | pg :: r => if Visible pg then ps else pg :: ensureVisible r
  end.

Definition AddPage (name : string) (item : Primitive) (resize visible : bool)
    (a : Application) (p : Pages) : Application * Pages :=
  let hasFocus := PagesHasFocus a p in
  let p' := withPages
              (dropPage name (pages p) ++
               [{| Name := name; Item := item; Resize := resize; Visible := visible |}])%list p in
  (if hasFocus then PagesFocus a p' else a, p').

Definition RemovePage (name : string) (a : Application) (p : Pages)
    : Application * Pages :=
  let hasFocus := PagesHasFocus a p in
  let isVisible := match findPage name (pages p) with
                   | Some pg => Visible pg
                   | None => false
                   end in
  let ps := dropPage name (pages p) in
  let p' := withPages (if isVisible then ensureVisible ps else ps) p in
  (if hasFocus then PagesFocus a p' else a, p').

(** [Application.SetRoot(pages, _)]: the pages are focused with the
    application's delegate and keep it. *)
Definition SetRoot (a : Application) (p : Pages) : Application * Pages :=
  let p' := {| pages := pages p; setFocus := true |} in
  (PagesFocus a p', p').

End tview.

(* ================================================================== *)
(** ** The event manager and the configuration                         *)
(* ================================================================== *)

Module manager.

Inductive MessageType : Type := StyleChanged | FocusChanged.

Record Message : Type := { Type_ : MessageType; Data : option string }.

Record EventMsg : Type := { Message_ : Message }.

(** The manager is kept as the sequence of events it was asked to
    broadcast. *)
Record ElementManager : Type := { broadcasts : list EventMsg }.

Definition NewElementManager : ElementManager := {| broadcasts := [] |}.

(** Modelled from the spec: the element manager's [Broadcast], which
    delivers the event to every registered handler, in one synchronous
    pass. *)
Definition Broadcast (msg : EventMsg) (m : ElementManager) : ElementManager :=
  {| broadcasts := (broadcasts m ++ [msg])%list |}.

End manager.

Module config.

Record StylesConfig : Type :=
  { CurrentStyle : string; BetterSymbols : bool }.

Record Config : Type := { Styles_ : StylesConfig }.

Definition setCurrentStyle (name : string) (c : Config) : Config :=
  {| Styles_ := {| CurrentStyle := name;
                   BetterSymbols := BetterSymbols (Styles_ c) |} |}.

End config.

(** Go's [error] values carry a message. *)
Definition error : Type := string.

(* ================================================================== *)
(** ** internal/tui/core: the application and its pages                *)
(* ================================================================== *)

Module core.

Section WithCollaborators.

(** The style and key-binding structures and the three loaders of
    package [config] are taken as they come: a loader returns Go's
    pair of a (possibly nil) value and a (possibly nil) error. *)
Variables Styles KeyBindings : Type.
Variable UpdateConfig : config.Config -> option error.
Variable LoadStyles : string -> bool -> option Styles * option error.
Variable LoadKeybindings : option KeyBindings * option error.

(** [Pages] wraps the toolkit's pages; [style] is what [SetStyle] last
    applied to them. *)
Record Pages : Type :=
  { tview_Pages : tview.Pages; style : option Styles }.

(** [App]; the [dao] field plays no part in what follows and is left
    out.  [previousFocus] is one nullable primitive. *)
Record App : Type :=
  { Application : tview.Application;
    Pages_ : Pages;
    manager_ : manager.ElementManager;
    styles : option Styles;
    config_ : config.Config;
    keys : option KeyBindings;
    previousFocus : option tview.Primitive }.

Definition NewPages : Pages :=
  {| tview_Pages := tview.NewPages; style := None |}.

(** Modelled from the spec: [Pages.SetStyle], which applies the style
    definitions to the Page Stack. *)
Definition PagesSetStyle (s : option Styles) (p : Pages) : Pages :=
  {| tview_Pages := tview_Pages p; style := s |}.

(** Field updates. *)
Definition withApplication (t : tview.Application) (a : App) : App :=
  {| Application := t; Pages_ := Pages_ a; manager_ := manager_ a;
     styles := styles a; config_ := config_ a; keys := keys a;
     previousFocus := previousFocus a |}.

Definition withToolkit (tp : tview.Application * tview.Pages) (a : App) : App :=
  {| Application := fst tp;
     Pages_ := {| tview_Pages := snd tp; style := style (Pages_ a) |};
     manager_ := manager_ a;
     styles := styles a; config_ := config_ a; keys := keys a;
     previousFocus := previousFocus a |}.

Definition withPagesStyle (s : option Styles) (a : App) : App :=
  {| Application := Application a; Pages_ := PagesSetStyle s (Pages_ a);
     manager_ := manager_ a;
     styles := styles a; config_ := config_ a; keys := keys a;
     previousFocus := previousFocus a |}.

Definition withManager (m : manager.ElementManager) (a : App) : App :=
  {| Application := Application a; Pages_ := Pages_ a; manager_ := m;
     styles := styles a; config_ := config_ a; keys := keys a;
     previousFocus := previousFocus a |}.

Definition withStyles (s : option Styles) (a : App) : App :=
  {| Application := Application a; Pages_ := Pages_ a; manager_ := manager_ a;
     styles := s; config_ := config_ a; keys := keys a;
     previousFocus := previousFocus a |}.

Definition withConfig (c : config.Config) (a : App) : App :=
  {| Application := Application a; Pages_ := Pages_ a; manager_ := manager_ a;
     styles := styles a; config_ := c; keys := keys a;
     previousFocus := previousFocus a |}.

Definition withPreviousFocus (f : option tview.Primitive) (a : App) : App :=
  {| Application := Application a; Pages_ := Pages_ a; manager_ := manager_ a;
     styles := styles a; config_ := config_ a; keys := keys a;
     previousFocus := f |}.

Definition GetFocus (a : App) : option tview.Primitive :=
  tview.GetFocus (Application a).

(** [NewApp]: a loader's failure is fatal ([log.Fatal] ends the
    process). *)
Inductive started : Type :=
| Fatal (msg : string) (err : error)
| Running (a : App).

Definition NewApp (appConfig : config.Config) : started :=
  let (st, err) := LoadStyles (config.CurrentStyle (config.Styles_ appConfig))
                              (config.BetterSymbols (config.Styles_ appConfig)) in
  match err with
  | Some e => Fatal "Failed to load styles" e
  | None =>
      let (kb, err) := LoadKeybindings in
      match err with
      | Some e => Fatal "Failed to load keybindings" e
      | None =>
          Running
            {| Application := tview.NewApplication;
               Pages_ := PagesSetStyle st NewPages;
               manager_ := manager.NewElementManager;
               styles := st;
               config_ := appConfig;
               keys := kb;
               previousFocus := None |}
      end
  end.

(** [FocusChanged]: the manager broadcasts the primitive's identifier. *)
Definition FocusChanged (p : tview.Primitive) (a : App) : App :=
  withManager
    (manager.Broadcast
       {| manager.Message_ :=
            {| manager.Type_ := manager.FocusChanged;
               manager.Data := Some (tview.GetIdentifier p) |} |}
       (manager_ a)) a.

Definition SetPreviousFocus (a : App) : App :=
  withPreviousFocus (GetFocus a) a.

Definition SetFocus (p : tview.Primitive) (a : App) : App :=
  let a := withPreviousFocus (GetFocus a) a in
  let a := withApplication (tview.SetFocus p (Application a)) a in
  FocusChanged p a.

Definition GiveBackFocus (a : App) : App :=
  match previousFocus a with
  | Some p => withPreviousFocus None (SetFocus p a)
  | None => a
  end.

(** [SetStyle] returns the application as the call leaves it and the
    error, if any.  ([LoadMainStyles] copies the loaded styles into the
    toolkit's global style table, which no operation here reads.) *)
Definition SetStyle (styleName : string) (a : App) : App * option error :=
  let a := withConfig (config.setCurrentStyle styleName (config_ a)) a in
  match UpdateConfig (config_ a) with
  | Some err => (a, Some err)
  | None =>
      let (st, err) := LoadStyles (config.CurrentStyle (config.Styles_ (config_ a)))
                                  (config.BetterSymbols (config.Styles_ (config_ a))) in
      let a := withStyles st a in
      match err with
      | Some e => (a, Some e)
      | None =>
          let a := withPagesStyle (styles a) a in
          let a := withManager
                     (manager.Broadcast
                        {| manager.Message_ :=
                             {| manager.Type_ := manager.StyleChanged;
                                manager.Data := None |} |}
                        (manager_ a)) a in
          (a, None)
      end
  end.

(** The error of a reload that fails: the one persisting the
    configuration returns, or else the one loading the styles
    returns; [None] when both succeed. *)
Definition reloadError (styleName : string) (a : App) : option error :=
  match UpdateConfig (config.setCurrentStyle styleName (config_ a)) with
  | Some e => Some e
  | None =>
      snd (LoadStyles styleName
             (config.BetterSymbols (config.Styles_ (config_ a))))
  end.

(** pages.go *)
Definition AddPage (view : tview.Identifier) (page : tview.Primitive)
    (resize visable : bool) (a : App) : App :=
  let a := SetPreviousFocus a in
  let a := withToolkit
             (tview.AddPage view page resize visable
                (Application a) (tview_Pages (Pages_ a))) a in
  if visable && tview.HasFocus (Application a) page
  then FocusChanged page a
  else a.

Definition RemovePage (view : tview.Identifier) (a : App) : App :=
  let a := withToolkit
             (tview.RemovePage view (Application a) (tview_Pages (Pages_ a))) a in
  GiveBackFocus a.

Definition HasPage (view : tview.Identifier) (a : App) : bool :=
  tview.HasPage view (tview_Pages (Pages_ a)).

(** The application's root is its pages (done once at start-up). *)
Definition SetRoot (a : App) : App :=
  withToolkit (tview.SetRoot (Application a) (tview_Pages (Pages_ a))) a.

(** *** The spec's vocabulary over this state *)

(** The Page Stack is the toolkit's ordered list of pages. *)
Definition PageStack (a : App) : list tview.page :=
  tview.pages (tview_Pages (Pages_ a)).

(** The Focus Stack is what [previousFocus] records: nothing, or one
    primitive. *)
Definition FocusStack (a : App) : list tview.Primitive :=
  match previousFocus a with
  | Some p => [p]
  | None => []
  end.

Definition PageDepth (a : App) : nat := List.length (PageStack a).

Definition FocusDepth (a : App) : nat := List.length (FocusStack a).

(** A call of the page interface. *)
Inductive call : Type :=
| ShowPage (id : tview.Identifier) (view : tview.Primitive) (resizable visible : bool)
| HidePage (id : tview.Identifier).

Definition step (c : call) (a : App) : App :=
  match c with
  | ShowPage id view resizable visible => AddPage id view resizable visible a
  | HidePage id => RemovePage id a
  end.

Fixpoint run (cs : list call) (a : App) : App :=
  match cs with
  | [] => a
  | c :: r => run r (step c a)
  end.

(** Shows and hides are matched when they nest like brackets: each
    hide closes the innermost page still open, by its id. *)
Fixpoint matchedFrom (open : list tview.Identifier) (cs : list call) : bool :=
  match cs with
  | [] => match open with [] => true | _ => false end
  | ShowPage id _ _ _ :: r => matchedFrom (id :: open) r
  | HidePage id :: r =>
      match open with
      | top :: rest => String.eqb top id && matchedFrom rest r
      | [] => false
      end
  end.

Definition matched (cs : list call) : bool := matchedFrom [] cs.

(** The state the application starts in: no page, nothing recorded. *)
Definition initial (a : App) : Prop :=
  PageStack a = [] /\ previousFocus a = None.

(** What holds of a state part-way through a matched sequence, the
    ids in [open] being shown and not yet hidden: page names are not
    repeated, every page is one of the open ones, and once nothing is
    open nothing is recorded. *)
Definition pending (open : list tview.Identifier) (a : App) : Prop :=
  NoDup (tview.names (PageStack a)) /\
  incl (tview.names (PageStack a)) open /\
  (open = [] -> previousFocus a = None).

(** [f] holds the input focus: the application's focus is [f], and
    [f] keeps the focus it is given (the toolkit never leaves the
    focus on a container that hands it on to an item). *)
Definition holdsFocus (a : App) (f : tview.Primitive) : Prop :=
  GetFocus a = Some f /\ tview.focusTarget f = f.

(** The focus is settled: whatever has it keeps it.  This holds of
    every state the operations below reach, the focus being set
    through the toolkit's [SetFocus] alone. *)
Definition settled (a : App) : Prop :=
  match GetFocus a with
  | Some f => tview.focusTarget f = f
  | None => True
  end.

(** The pages hold the focus and the delegate to move it: the state
    in which the toolkit focuses the top page when pages change. *)
Definition pagesFocused (a : App) : bool :=
  tview.PagesHasFocus (Application a) (tview_Pages (Pages_ a))
  && tview.setFocus (tview_Pages (Pages_ a)).

(** Where the toolkit puts the focus when pages [ps] are re-focused:
    on the top visible item, or nowhere new when there is none. *)
Definition defaultFocus (ps : list tview.page)
    (current : option tview.Primitive) : option tview.Primitive :=
  match tview.topItem ps with
  | Some t => Some (tview.focusTarget t)
  | None => current
  end.

Definition broadcasts (a : App) : list manager.EventMsg :=
  manager.broadcasts (manager_ a).

Definition focusChanged (p : tview.Primitive) : manager.EventMsg :=
  {| manager.Message_ :=
       {| manager.Type_ := manager.FocusChanged;
          manager.Data := Some (tview.GetIdentifier p) |} |}.

Definition styleChanged : manager.EventMsg :=
  {| manager.Message_ :=
       {| manager.Type_ := manager.StyleChanged; manager.Data := None |} |}.

End WithCollaborators.

Arguments tview_Pages {Styles}.
Arguments style {Styles}.
Arguments Application {Styles KeyBindings}.
Arguments Pages_ {Styles KeyBindings}.
Arguments manager_ {Styles KeyBindings}.
Arguments styles {Styles KeyBindings}.
Arguments config_ {Styles KeyBindings}.
Arguments keys {Styles KeyBindings}.
Arguments previousFocus {Styles KeyBindings}.
Arguments GetFocus {Styles KeyBindings}.
Arguments FocusChanged {Styles KeyBindings}.
Arguments SetPreviousFocus {Styles KeyBindings}.
Arguments SetFocus {Styles KeyBindings}.
Arguments GiveBackFocus {Styles KeyBindings}.
Arguments SetStyle {Styles KeyBindings}.
Arguments reloadError {Styles KeyBindings}.
Arguments NewApp {Styles KeyBindings}.
Arguments Running {Styles KeyBindings}.
Arguments Fatal {Styles KeyBindings}.
Arguments AddPage {Styles KeyBindings}.
Arguments RemovePage {Styles KeyBindings}.
Arguments HasPage {Styles KeyBindings}.
Arguments SetRoot {Styles KeyBindings}.
Arguments PageStack {Styles KeyBindings}.
Arguments FocusStack {Styles KeyBindings}.
Arguments PageDepth {Styles KeyBindings}.
Arguments FocusDepth {Styles KeyBindings}.
Arguments step {Styles KeyBindings}.
Arguments run {Styles KeyBindings}.
Arguments initial {Styles KeyBindings}.
Arguments pending {Styles KeyBindings}.
Arguments holdsFocus {Styles KeyBindings}.
Arguments settled {Styles KeyBindings}.
Arguments pagesFocused {Styles KeyBindings}.
Arguments broadcasts {Styles KeyBindings}.
Arguments withToolkit {Styles KeyBindings}.
Arguments withPreviousFocus {Styles KeyBindings}.
Arguments withApplication {Styles KeyBindings}.
Arguments withManager {Styles KeyBindings}.

End core.

(* ================================================================== *)
(** ** component: the input bar                                        *)
(* ================================================================== *)

Module component.

Definition Component := string.

Definition InputBarComponent : Component := "InputBar".

Definition maxHistory : nat := 20.

(** *** The history file

    [history.txt] in the working directory: absent, or its contents.
    The three fault fields are what the operating system answers when
    it refuses to open, read or write the file. *)
Record fs : Type :=
  { history_txt : option string;
    openFault : option error;
    readFault : option error;
    writeFault : option error }.

Definition withContents (c : option string) (f : fs) : fs :=
  {| history_txt := c; openFault := openFault f;
     readFault := readFault f; writeFault := writeFault f |}.

Definition newline : ascii := "010"%char.

Definition nl : string := String newline EmptyString.

(** [strings.Split(s, "\n")]: the pieces between newlines, at least one. *)
Fixpoint Split (s : string) : list string :=
  match s with
  | EmptyString => [EmptyString]
  | String c r =>
      if Ascii.eqb c newline then EmptyString :: Split r
      else match Split r with
           | h :: t => String c h :: t
           | [] => [String c EmptyString]
           end
  end.

Definition nonEmpty (line : string) : bool :=
  negb (String.eqb line EmptyString).

(** [os.ReadFile] *)
Definition ReadFile (f : fs) : string * option error :=
  match readFault f with
  | Some e => (EmptyString, Some e)
  | None =>
      match history_txt f with
      | Some s => (s, None)
      | None => (EmptyString, Some "open history.txt: no such file or directory")
      end
  end.

Definition LoadHistory (f : fs) : list string * option error :=
  let (file, err) := ReadFile f in
  match err with
  | Some e => ([], Some e)
  | None => (filter nonEmpty (Split file), None)
  end.

(** [os.OpenFile] with [O_APPEND|O_CREATE|O_WRONLY]: the file exists
    afterwards. *)
Definition OpenFile (f : fs) : fs * option error :=
  match openFault f with
  | Some e => (f, Some e)
  | None =>
      (withContents (Some match history_txt f with
                          | Some s => s
                          | None => EmptyString
                          end) f, None)
  end.

(** [file.WriteString] on the file opened for appending. *)
Definition WriteString (s : string) (f : fs) : fs * option error :=
  match writeFault f with
  | Some e => (f, Some e)
  | None =>
      (withContents (Some (match history_txt f with
                           | Some old => old
                           | None => EmptyString
                           end ++ s)) f, None)
  end.

Definition SaveToHistory (text : string) (f : fs) : fs * option error :=
  let (f, err) := OpenFile f in
  match err with
  | Some e => (f, Some e)
  | None =>
      let (history, err) := LoadHistory f in
      match err with
      | Some e => (f, Some e)
      | None =>
          if existsb (fun entry => String.eqb entry text) history
          then (f, None)
          else WriteString (text ++ nl) f
      end
  end.

(** The file's contents, nothing when it is absent. *)
Definition contents (f : fs) : string :=
  match history_txt f with
  | Some s => s
  | None => EmptyString
  end.

(** A text without a newline in it. *)
Fixpoint singleLine (s : string) : bool :=
  match s with
  | EmptyString => true
  | String c r => negb (Ascii.eqb c newline) && singleLine r
  end.

(** Contents that are empty or end with a newline, as every file that
    only [SaveToHistory] wrote to. *)
Fixpoint terminated (s : string) : bool :=
  match s with
  | EmptyString => true
  | String c EmptyString => Ascii.eqb c newline
  | String _ r => terminated r
  end.

(** *** The bar and what surrounds it *)

Record InputBar : Type :=
  { label : string;
    enabled : bool;
    autocompleteOn : bool;
    docKeys : list string;
    text_ : string  (* what [GetText] returns *) }.

Definition NewInputBar (l : string) : InputBar :=
  {| label := l; enabled := false; autocompleteOn := false;
     docKeys := []; text_ := EmptyString |}.

Definition withEnabled (b : bool) (i : InputBar) : InputBar :=
  {| label := label i; enabled := b; autocompleteOn := autocompleteOn i;
     docKeys := docKeys i; text_ := text_ i |}.

(** What the requester's callbacks are called with. *)
Inductive callback : Type :=
| reject
| accept (text : string).

(** The input bar with the parts of the process it acts on;
    [components] is the component manager's stack, the active input
    target first. *)
Record World : Type :=
  { bar : InputBar;
    components : list Component;
    files : fs;
    called : list callback;
    logged : list (string * error) }.

Definition withBar (i : InputBar) (w : World) : World :=
  {| bar := i; components := components w; files := files w;
     called := called w; logged := logged w |}.

Definition withComponents (cs : list Component) (w : World) : World :=
  {| bar := bar w; components := cs; files := files w;
     called := called w; logged := logged w |}.

Definition withFiles (f : fs) (w : World) : World :=
  {| bar := bar w; components := components w; files := f;
     called := called w; logged := logged w |}.

Definition call (c : callback) (w : World) : World :=
  {| bar := bar w; components := components w; files := files w;
     called := (called w ++ [c])%list; logged := logged w |}.

Definition logError (msg : string) (e : error) (w : World) : World :=
  {| bar := bar w; components := components w; files := files w;
     called := called w; logged := (logged w ++ [(msg, e)])%list |}.

(** Modelled from the spec: the component manager's [PushComponent] and
    [PopComponent]; enabling a component pushes it as the active input
    target, disabling pops it. *)
Definition PushComponent (c : Component) (w : World) : World :=
  withComponents (c :: components w) w.

Definition PopComponent (w : World) : World :=
  withComponents (tl (components w)) w.

Definition IsEnabled (w : World) : bool := enabled (bar w).

(** [Enable] and [Disable] run under the bar's mutex; one caller at a
    time, the lock is free before and after.  The bar has been
    initialised ([Init] has set its application). *)
Definition Enable (w : World) : World :=
  PushComponent InputBarComponent (withBar (withEnabled true (bar w)) w).

Definition Disable (w : World) : World :=
  PopComponent (withBar (withEnabled false (bar w)) w).

Definition Toggle (w : World) : World :=
  if IsEnabled w then Disable w else Enable w.

Definition GetText (w : World) : string := text_ (bar w).

Inductive Key : Type :=
| KeyEnter
| KeyEsc
| KeyOther (code : nat).

(** What arrives on the bar's channel of [interface{}]. *)
Inductive event : Type :=
| keyEvent (k : Key)
| otherEvent.

(** The two updates the listener queues for the drawing loop. *)
Definition onEsc (w : World) : World :=
  call reject (Disable w).

Definition onEnter (w : World) : World :=
  let w := Disable w in
  let text := GetText w in
  let (f, err) := SaveToHistory text (files w) in
  let w := withFiles f w in
  let w := match err with
           | Some e => logError "Error saving query to history" e w
           | None => w
           end in
  call (accept text) w.

(** One turn of the listener's loop; the queued update is run by the
    drawing loop before the next one. *)
Definition listen (ev : event) (w : World) : World :=
  match ev with
  | otherEvent => w
  | keyEvent KeyEsc => onEsc w
  | keyEvent KeyEnter => onEnter w
  | keyEvent (KeyOther _) => w
  end.

(** [EventListener] over the events received so far. *)
Fixpoint EventListener (evs : list event) (w : World) : World :=
  match evs with
  | [] => w
  | ev :: r => EventListener r (listen ev w)
  end.

(** *** The rest of the input bar *)

Definition withAutocompleteOn (b : bool) (i : InputBar) : InputBar :=
  {| label := label i; enabled := enabled i; autocompleteOn := b;
     docKeys := docKeys i; text_ := text_ i |}.

Definition withDocKeys (ks : list string) (i : InputBar) : InputBar :=
  {| label := label i; enabled := enabled i; autocompleteOn := autocompleteOn i;
     docKeys := ks; text_ := text_ i |}.

Definition LoadNewKeys (ks : list string) (i : InputBar) : InputBar :=
  withDocKeys ks i.

(** [ToggleAutocomplete], under the mutex. *)
Definition ToggleAutocomplete (i : InputBar) : InputBar :=
  if autocompleteOn i then withAutocompleteOn false i
  else withAutocompleteOn true i.

Record AutocompleteItem : Type :=
  { Value : string; ItemDescription : string }.

(** The double quote, for the one item that has it in its value. *)
Definition dquote : string := String (ascii_of_nat 34) EmptyString.

(** The items [Autocomplete] offers. *)
Definition autocompleteItems : list AutocompleteItem :=
  [ {| Value := "Text"; ItemDescription := "This is a text" |};
    {| Value := "Number"; ItemDescription := "This is a number" |};
    {| Value := "Date"; ItemDescription := "This is a date" |};
    {| Value := "ObjectId(" ++ dquote ++ " " ++ dquote ++ ")";
       ItemDescription := "ObjectId is a 12-byte BSON type" |};
    {| Value := "Obj"; ItemDescription := "Obj" |} ].

(** The function [Autocomplete] installs: the items whose value starts
    with the text, in the order of the table ([pos] is not used). *)
Definition autocompleteFunc (text : string) (pos : nat) : list AutocompleteItem :=
  filter (fun item => String.prefix text (Value item)) autocompleteItems.

(** The input capture [setShortcuts] installs.  While the autocomplete
    list is visible every key is passed on; otherwise Enter and Esc are
    sent on the bar's channel and swallowed.  The result is the key
    passed on, if any, and what was sent on the channel. *)
Definition inputCapture (autocompleteVisible : bool) (k : Key)
    : option Key * list event :=
  if autocompleteVisible then (Some k, [])
  else match k with
       | KeyEnter => (None, [keyEvent KeyEnter])
       | KeyEsc => (None, [keyEvent KeyEsc])
       | KeyOther _ => (Some k, [])
       end.

(** What a sequence of keystrokes puts on the channel; each keystroke
    comes with whether the autocomplete list is visible then. *)
Definition sentBy (strokes : list (bool * Key)) : list event :=
  flat_map (fun s => snd (inputCapture (fst s) (snd s))) strokes.

(** The callback the listener makes for an event, if any. *)
Definition callbackFor (text : string) (ev : event) : list callback :=
  match ev with
  | keyEvent KeyEsc => [reject]
  | keyEvent KeyEnter => [accept text]
  | _ => []
  end.

(** *** component/app.go: the application in the context *)

Section AppInContext.

Variable App : Type.

(** A context value: the application, or something else. *)
Inductive ctxValue : Type :=
| appValue (a : App)
| otherValue (v : string).

(** A context is its chain of [WithValue]s, the latest first;
    [context.Background()] has none. *)
Definition Context : Type := list (string * ctxValue).

Definition appCtxKey : string := "app".

Definition Background : Context := [].

Definition WithValue (ctx : Context) (key : string) (v : ctxValue) : Context :=
  (key, v) :: ctx.

Fixpoint ContextValue (ctx : Context) (key : string) : option ctxValue :=
  match ctx with
  | [] => None
  | (k, v) :: parent => if String.eqb k key then Some v else ContextValue parent key
  end.

Definition LoadApp (ctx : Context) (app : App) : Context :=
  WithValue ctx appCtxKey (appValue app).

(** [GetApp]; [None] is the panic "App not found in context". *)
Definition GetApp (ctx : Context) : option App :=
  match ContextValue ctx appCtxKey with
  | Some (appValue a) => Some a
  | _ => None
  end.

End AppInContext.

Arguments appValue {App}.
Arguments otherValue {App}.
Arguments Background {App}.
Arguments WithValue {App}.
Arguments ContextValue {App}.
Arguments LoadApp {App}.
Arguments GetApp {App}.

End component.

(* ================================================================== *)
(** ** mongo: the data-access object                                   *)
(* ================================================================== *)

Module mongo.

(** [primitive.ObjectID], twelve bytes, as the number they spell. *)
Definition ObjectID := nat.

Inductive Value : Type :=
| VString (s : string)
| VInt (n : nat)
| VBool (b : bool)
| VObjectID (id : ObjectID).

(** [primitive.M]: field name to value. *)
Definition M := list (string * Value).

Fixpoint get (key : string) (m : M) : option Value :=
  match m with
  | [] => None
  | (k, v) :: r => if String.eqb k key then Some v else get key r
  end.

Definition idOf (m : M) : option ObjectID :=
  match get "_id" m with
  | Some (VObjectID id) => Some id
  | _ => None
  end.

(** The driver's client: the documents of each collection of each
    database, in insertion order. *)
Record Client : Type := { documents : string -> string -> list M }.

Record Dao : Type := { client : Client }.

Definition NewDao (c : Client) : Dao := {| client := c |}.

Definition hasId (id : ObjectID) (docs : list M) : bool :=
  existsb (fun d => match idOf d with
                    | Some i => Nat.eqb i id
                    | None => false
                    end) docs.

(** An id no document of the collection has. *)
Definition freshId (docs : list M) : ObjectID :=
  S (fold_right (fun d acc => match idOf d with
                              | Some i => Nat.max i acc
                              | None => acc
                              end) 0 docs).

(** The driver's [InsertOne]: a document without [_id] is given a new
    one; an [_id] already in the collection is a duplicate-key error;
    otherwise the document joins the collection. *)
Definition InsertOne (db coll : string) (document : M) (c : Client)
    : Client * option error :=
  let docs := documents c db coll in
  let doc := match get "_id" document with
             | Some _ => document
             | None => ("_id", VObjectID (freshId docs)) :: document
             end in
  match idOf doc with
  | Some id =>
      if hasId id docs then (c, Some "E11000 duplicate key error")
      else
        ({| documents := fun d k =>
              if String.eqb d db && String.eqb k coll
              then (docs ++ [doc])%list else documents c d k |}, None)
  | None =>
      ({| documents := fun d k =>
            if String.eqb d db && String.eqb k coll
            then (docs ++ [doc])%list else documents c d k |}, None)
  end.

(** [UpdateDocument]; the context carries nothing a result depends on. *)
Definition UpdateDocument (db collection : string) (id : ObjectID)
    (document : M) (d : Dao) : Dao * option error :=
  let (c, err) := InsertOne db collection document (client d) in
  match err with
  | Some e => ({| client := c |}, Some e)
  | None => ({| client := c |}, None)
  end.

(** The document of a collection that has the given id. *)
Definition findById (id : ObjectID) (docs : list M) : option M :=
  find (fun d => match idOf d with
                 | Some i => Nat.eqb i id
                 | None => false
                 end) docs.

(** *** Listing *)

Section Listing.

(** The driver's reading of a filter document: does the document match? *)
Variable matches : M -> M -> bool.

(** The driver's [CountDocuments]. *)
Definition CountDocuments (db coll : string) (filter : M) (c : Client) : Z :=
  Z.of_nat (List.length (List.filter (matches filter) (documents c db coll))).

(** The driver's [Find] with [Limit] and [Skip] set, the cursor read to
    its end: the matching documents in collection order, without the
    first [skip], cut to [limit] (no cut for 0, the absolute value for a
    negative limit); the server refuses a negative skip. *)
Definition Find (db coll : string) (filter : M) (limit skip : Z) (c : Client)
    : list M * option error :=
  if (skip <? 0)%Z then ([], Some "BadValue: skip must be non-negative")
  else
    let rest := skipn (Z.to_nat skip)
                  (List.filter (matches filter) (documents c db coll)) in
    (if (limit =? 0)%Z then rest else firstn (Z.to_nat (Z.abs limit)) rest, None).

(** [ListDocuments]: the documents, the count, the error. *)
Definition ListDocuments (db collection : string) (filter : M) (page limit : Z)
    (d : Dao) : list M * Z * option error :=
  let count := CountDocuments db collection [] (client d) in
  let (documents, err) := Find db collection filter limit page (client d) in
  match err with
  | Some e => ([], 0%Z, Some e)
  | None => (documents, count, None)
  end.

End Listing.

(** A plain filter: every field of the filter is a field of the
    document, with that value. *)
Definition valueEqb (v w : Value) : bool :=
  match v, w with
  | VString s, VString t => String.eqb s t
  | VInt n, VInt m => Nat.eqb n m
  | VBool b, VBool c => Bool.eqb b c
  | VObjectID i, VObjectID j => Nat.eqb i j
  | _, _ => false
  end.

Definition fieldsMatch (filter document : M) : bool :=
  forallb (fun kv => match get (fst kv) document with
                     | Some v => valueEqb v (snd kv)
                     | None => false
                     end) filter.

End mongo.

(* ================================================================== *)
(** ** reflect: struct values as the reflection-driven code sees them  *)
(* ================================================================== *)

Module reflect.

(** A value of one of the kinds the configuration structs are made of:
    a string, a slice of strings, a struct (its type's name and its
    fields in declaration order), or a value of another kind. *)
#[warnings="-register-all"]
Inductive Value : Type :=
| String_ (s : string)
| Slice (l : list string)
| Other (repr : string)
| Struct (type : string) (fields : list (string * Value)).

(** Induction that reaches the fields of a struct. *)
Fixpoint Value_fields_ind (P : Value -> Prop)
    (onString : forall s, P (String_ s))
    (onSlice : forall l, P (Slice l))
    (onOther : forall r, P (Other r))
    (onStruct : forall type fields,
        Forall (fun f => P (snd f)) fields -> P (Struct type fields))
    (v : Value) {struct v} : P v :=
  match v with
  | String_ s => onString s
  | Slice l => onSlice l
  | Other r => onOther r
  | Struct type fields =>
      onStruct type fields
        ((fix all (l : list (string * Value)) : Forall (fun f => P (snd f)) l :=
            match l with
            | [] => Forall_nil _
            | (n, f) :: r =>
                Forall_cons (n, f)
                  (Value_fields_ind P onString onSlice onOther onStruct f) (all r)
            end) fields)
  end.

Definition isStruct (v : Value) : bool :=
  match v with Struct _ _ => true | _ => false end.

(** [v.FieldByName(name)] *)
Fixpoint FieldByName (fields : list (string * Value)) (name : string)
    : option Value :=
  match fields with
  | [] => None
  | (n, f) :: r => if String.eqb n name then Some f else FieldByName r name
  end.

(** Two values of one type: the same kinds, the same struct types and
    field names, all the way down. *)
Fixpoint sameType (v w : Value) {struct v} : bool :=
  match v, w with
  | String_ _, String_ _ => true
  | Slice _, Slice _ => true
  | Other _, Other _ => true
  | Struct t fs, Struct u gs =>
      String.eqb t u &&
      (fix fields (fs gs : list (string * Value)) {struct fs} : bool :=
         match fs, gs with
         | [], [] => true
         | (n, f) :: fs', (m, g) :: gs' =>
             String.eqb n m && sameType f g && fields fs' gs'
         | _, _ => false
         end) fs gs
  | _, _ => false
  end.

(** The inner loop of [sameType], by itself. *)
Definition sameFields (fs gs : list (string * Value)) : bool :=
  (fix fields (fs gs : list (string * Value)) {struct fs} : bool :=
     match fs, gs with
     | [], [] => true
     | (n, f) :: fs', (m, g) :: gs' =>
         String.eqb n m && sameType f g && fields fs' gs'
     | _, _ => false
     end) fs gs.

(** Made of strings, slices of strings and structs only. *)
Fixpoint stringsOnly (v : Value) : bool :=
  match v with
  | String_ _ => true
  | Slice _ => true
  | Other _ => false
  | Struct _ fs =>
      (fix fields (fs : list (string * Value)) : bool :=
         match fs with
         | [] => true
         | (_, f) :: r => stringsOnly f && fields r
         end) fs
  end.

Definition stringsOnlyFields (fs : list (string * Value)) : bool :=
  (fix fields (fs : list (string * Value)) : bool :=
     match fs with
     | [] => true
     | (_, f) :: r => stringsOnly f && fields r
     end) fs.

(** The zero value of a value's type. *)
Fixpoint zero (v : Value) : Value :=
  match v with
  | String_ _ => String_ EmptyString
  | Slice _ => Slice []
  | Other _ => Other EmptyString
  | Struct t fs =>
      Struct t ((fix fields (fs : list (string * Value)) : list (string * Value) :=
                   match fs with
                   | [] => []
                   | (n, f) :: r => (n, zero f) :: fields r
                   end) fs)
  end.

Definition zeroFields (fs : list (string * Value)) : list (string * Value) :=
  (fix fields (fs : list (string * Value)) : list (string * Value) :=
     match fs with
     | [] => []
     | (n, f) :: r => (n, zero f) :: fields r
     end) fs.

End reflect.

(* ================================================================== *)
(** ** util: merging a loaded configuration with the defaults          *)
(* ================================================================== *)

Module util.

Import reflect.

(** What the loop of [mergeConfigsRecursive] leaves in one field. *)
Definition isEmptyString (s : string) : bool := String.eqb s EmptyString.

(** [mergeConfigsRecursive]: field by field, an empty string or an
    empty slice takes the default, a struct is merged in turn, anything
    else stays.  Both values are of one type; a field the default does
    not have (there is none then) stays as it is. *)
Fixpoint mergeConfigsRecursive (loaded defaultValue : Value) {struct loaded} : Value :=
  match loaded with
  | Struct t fs =>
      Struct t
        ((fix fields (fs ds : list (string * Value)) {struct fs}
            : list (string * Value) :=
            match fs with
            | [] => []
            | (n, field) :: fs' =>
                match ds with
                | [] => (n, field) :: fields fs' []
                | (_, defaultField) :: ds' =>
                    (n, match field with
                        | String_ s =>
                            if isEmptyString s then defaultField else field
                        | Slice [] => defaultField
                        | Slice (_ :: _) => field
                        | Struct _ _ => mergeConfigsRecursive field defaultField
                        | Other _ => field
                        end) :: fields fs' ds'
                end
            end) fs (match defaultValue with Struct _ ds => ds | _ => [] end))
  | _ => loaded
  end.

(** The loop of [mergeConfigsRecursive] over the fields, by itself. *)
Definition mergeField (field defaultField : Value) : Value :=
  match field with
  | String_ s => if isEmptyString s then defaultField else field
  | Slice [] => defaultField
  | Slice (_ :: _) => field
  | Struct _ _ => mergeConfigsRecursive field defaultField
  | Other _ => field
  end.

Fixpoint mergeFields (fs ds : list (string * Value)) : list (string * Value) :=
  match fs with
  | [] => []
  | (n, field) :: fs' =>
      match ds with
      | [] => (n, field) :: mergeFields fs' []
      | (_, defaultField) :: ds' => (n, mergeField field defaultField) :: mergeFields fs' ds'
      end
  end.

(** [MergeConfigs] merges the defaults into the loaded configuration. *)
Definition MergeConfigs (loaded defaultConfig : Value) : Value :=
  mergeConfigsRecursive loaded defaultConfig.

End util.

(* ================================================================== *)
(** ** internal/config/keys.go: key bindings                           *)
(* ================================================================== *)

Module keys.

Import reflect.

Record Key : Type :=
  { Keys : list string; Runes : list string; Description : string }.

Record OrderedKeys : Type := { Element : string; Keys_ : list Key }.

(** A [Key] as a struct value, and back ([field.Interface().(Key)], for
    a field whose type is [Key]). *)
Definition keyValue (k : Key) : Value :=
  Struct "Key" [("Keys", Slice (Keys k)); ("Runes", Slice (Runes k));
                ("Description", String_ (Description k))].

Definition asKey (v : Value) : option Key :=
  match v with
  | Struct t [(_, Slice ks); (_, Slice rs); (_, String_ d)] =>
      if String.eqb t "Key"
      then Some {| Keys := ks; Runes := rs; Description := d |}
      else None
  | _ => None
  end.

Definition key (ks rs : list string) (d : string) : Value :=
  keyValue {| Keys := ks; Runes := rs; Description := d |}.

(** [KeyBindings] with the values [loadDefaultKeybindings] assigns, every
    struct with its fields in the order of its declaration. *)
Definition loadDefaultKeybindings : Value :=
  Struct "KeyBindings"
    [ ("Global", Struct "GlobalKeys"
        [ ("ToggleFullScreenHelp", key [] ["?"] "Toggle full screen help") ]);
      ("Help", Struct "HelpKeys"
        [ ("Close", key ["Esc"] [] "Close help") ]);
      ("Welcome", Struct "WelcomeKeys"
        [ ("MoveFocusUp", key ["Backtab"] [] "Move focus up");
          ("MoveFocusDown", key ["Tab"] [] "Move focus down") ]);
      ("Connector", Struct "ConnectorKeys"
        [ ("ToggleFocus", key ["Tab"; "Backtab"] [] "Toggle focus");
          ("ConnectorForm", Struct "ConnectorFormKeys"
            [ ("SaveConnection", key ["Ctrl+S"; "Enter"] [] "Save connection");
              ("FocusList", key ["Ctrl+H"; "Ctrl+Left"] [] "Focus Connection List") ]);
          ("ConnectorList", Struct "ConnectorListKeys"
            [ ("FocusForm", key ["Ctrl+L"; "Ctrl+Right"] [] "Move focus to form");
              ("DeleteConnection", key [] ["D"] "Delete selected connection");
              ("SetConnection", key ["Enter"; "Space"] [] "Set selected connection") ]) ]);
      ("Root", Struct "RootKeys"
        [ ("ToggleFocus", key ["Tab"; "Backtab"] [] "Focus next view");
          ("FocusDatabases", key ["Ctrl+H"] [] "Focus databases");
          ("FocusContent", key ["Ctrl+L"] [] "Focus content");
          ("HideDatabases", key ["Ctrl+N"] [] "Hide databases");
          ("OpenConnector", key ["Ctrl+O"] [] "Open connector") ]);
      ("Databases", Struct "DatabasesKeys"
        [ ("FilterBar", key [] ["/"] "Focus filter bar");
          ("ExpandAll", key [] ["E"] "Expand all");
          ("CollapseAll", key [] ["W"] "Collapse all");
          ("ToggleExpand", key [] ["T"] "Toggle expand");
          ("AddCollection", key [] ["A"] "Add collection");
          ("DeleteCollection", key [] ["D"] "Delete collection") ]);
      ("Content", Struct "ContentKeys"
        [ ("ChangeView", key [] ["f"] "Change table view");
          ("PeekDocument", key ["Enter"] ["p"] "Peek document");
          ("ViewDocument", key [] ["P"] "View document");
          ("AddDocument", key [] ["A"] "Add document");
          ("EditDocument", key [] ["E"] "Edit document");
          ("DuplicateDocument", key [] ["d"] "Duplicate document");
          ("DeleteDocument", key [] ["D"] "Delete document");
          ("MultipleSelect", key [] ["v"] "Multiple select");
          ("ClearSelection", key [] ["C"] "Clear selection");
          ("CopyLine", key [] ["c"] "Copy value");
          ("Refresh", key [] ["R"] "Refresh");
          ("ToggleQuery", key [] ["/"] "Toggle query");
          ("NextDocument", key [] ["]"] "Next document");
          ("PreviousDocument", key [] ["["] "Previous document");
          ("NextPage", key [] ["n"] "Next page");
          ("PreviousPage", key [] ["b"] "Previous page");
          ("QueryBar", Struct "QueryBar"
            [ ("ShowHistory", key ["Ctrl+Y"] [] "Show history");
              ("ClearInput", key ["Ctrl+D"] [] "Clear input") ]);
          ("ToggleSort", key [] ["s"] "Toggle sort") ]);
      ("DocPeeker", Struct "DocPeekerKeys"
        [ ("MoveToTop", key [] ["g"] "Move to top");
          ("MoveToBottom", key [] ["G"] "Move to bottom");
          ("CopyFullObj", key [] ["c"] "Copy full object");
          ("CopyValue", key [] ["v"] "Copy value");
          ("Refresh", key [] ["R"] "Refresh document") ]);
      ("History", Struct "HistoryKeys"
        [ ("ClearHistory", key [] ["C"] "Clear history");
          ("AcceptEntry", key ["Enter"; "Space"] [] "Accept entry");
          ("CloseHistory", key ["Esc"; "Ctrl+Y"] [] "Close history") ]) ].

(** [extractKeysFromStruct]: the fields of type [Key], and those of the
    struct fields in turn, in declaration order.  (It is called on
    structs only; a value of another kind has no fields here.) *)
Fixpoint extractKeysFromStruct (val : Value) : list Key :=
  match val with
  | Struct _ fields =>
      (fix loop (fs : list (string * Value)) : list Key :=
         match fs with
         | [] => []
         | (_, field) :: r =>
             match asKey field with
             | Some k => k :: loop r
             | None =>
                 match field with
                 | Struct _ _ => (extractKeysFromStruct field ++ loop r)%list
                 | _ => loop r
                 end
             end
         end) fields
  | _ => []
  end.

(** The loop of [extractKeysFromStruct], by itself. *)
Fixpoint extractFields (fs : list (string * Value)) : list Key :=
  match fs with
  | [] => []
  | (_, field) :: r =>
      match asKey field with
      | Some k => k :: extractFields r
      | None =>
          match field with
          | Struct _ _ => (extractKeysFromStruct field ++ extractFields r)%list
          | _ => extractFields r
          end
      end
  end.

Definition fieldsOf (v : Value) : list (string * Value) :=
  match v with Struct _ fields => fields | _ => [] end.

(** [GetAvaliableKeys]: one entry for each field of the key bindings. *)
Definition GetAvaliableKeys (kb : Value) : list OrderedKeys :=
  map (fun f => {| Element := fst f; Keys_ := extractKeysFromStruct (snd f) |})
      (fieldsOf kb).

(** [GetKeysForElement]: the entries, and the error. *)
Definition GetKeysForElement (elementId : string) (kb : Value)
    : list OrderedKeys * option error :=
  if String.eqb elementId EmptyString then ([], Some "element is empty")
  else
    match FieldByName (fieldsOf kb) elementId with
    | Some (Struct t fs) =>
        ([{| Element := elementId;
             Keys_ := extractKeysFromStruct (Struct t fs) |}], None)
    | _ => ([], Some ("field " ++ elementId ++ " not found"))
    end.

(** [ConvertStrKeyToTcellKey] over the toolkit's table of key names
    (a map: no key twice). *)
Fixpoint ConvertStrKeyToTcellKey (KeyNames : list (Z * string)) (key : string)
    : Z * bool :=
  match KeyNames with
  | [] => ((-1)%Z, false)
  | (k, v) :: r =>
      if String.eqb v key then (k, true) else ConvertStrKeyToTcellKey r key
  end.

(** [strings.TrimPrefix] *)
Fixpoint dropChars (n : nat) (s : string) : string :=
  match n, s with
  | S m, String _ r => dropChars m r
  | _, _ => s
  end.

Definition TrimPrefix (s prefix : string) : string :=
  if String.prefix prefix s then dropChars (String.length prefix) s else s.

(** [s[1:2]]; [None] where the slice is out of range. *)
Definition slice_1_2 (s : string) : option string :=
  match s with
  | String _ (String c _) => Some (String c EmptyString)
  | _ => None
  end.

Definition inList (x : string) (l : list string) : bool :=
  existsb (fun k => String.eqb k x) l.

(** [Contains]; [None] is the panic of the slice expression. *)
Definition Contains (configKey : Key) (namedKey : string) : option bool :=
  let namedKey := if String.eqb namedKey "Rune[ ]" then "Space" else namedKey in
  let namedKey := if String.eqb namedKey "Backspace" then "Ctrl+H" else namedKey in
  if String.prefix "Rune" namedKey then
    let namedKey := TrimPrefix namedKey "Rune" in
    match Runes configKey with
    | [] => Some (inList namedKey (Keys configKey))
    | _ :: _ =>
        match slice_1_2 namedKey with
        | None => None
        | Some r =>
            if inList r (Runes configKey) then Some true
            else Some (inList namedKey (Keys configKey))
        end
    end
  else Some (inList namedKey (Keys configKey)).

(** [Key.String]: the loop over the keys, or over the runes when there
    is no key. *)
Fixpoint joinFrom (i : nat) (keyString : string) (iter : list string) : string :=
  match iter with
  | [] => keyString
  | k :: r =>
      joinFrom (S i)
        (if Nat.eqb i 0 then k else keyString ++ ", " ++ k) r
  end.

Definition KeyString (k : Key) : string :=
  joinFrom 0 EmptyString
    (match Keys k with
     | _ :: _ => Keys k
     | [] => Runes k
     end).

(** What merging leaves of two keys: each of the three fields by itself. *)
Definition mergeKey (loaded defaultKey : Key) : Key :=
  {| Keys := match Keys loaded with [] => Keys defaultKey | _ :: _ => Keys loaded end;
     Runes := match Runes loaded with [] => Runes defaultKey | _ :: _ => Runes loaded end;
     Description := if util.isEmptyString (Description loaded)
                    then Description defaultKey else Description loaded |}.

(** Two lists of keys merged pairwise. *)
Definition mergeKeys (loaded defaults : list Key) : list Key :=
  map (fun p => mergeKey (fst p) (snd p)) (combine loaded defaults).

(** Every struct called [Key] is laid out as one. *)
Fixpoint keysTyped (v : Value) : bool :=
  match v with
  | Struct t fs =>
      (if String.eqb t "Key"
       then match asKey v with Some _ => true | None => false end
       else true) &&
      (fix fields (fs : list (string * Value)) : bool :=
         match fs with
         | [] => true
         | (_, f) :: r => keysTyped f && fields r
         end) fs
  | _ => true
  end.

Definition keysTypedFields (fs : list (string * Value)) : bool :=
  (fix fields (fs : list (string * Value)) : bool :=
     match fs with
     | [] => true
     | (_, f) :: r => keysTyped f && fields r
     end) fs.

(** A key that can be pressed and shown: a key or a rune, and a
    description. *)
Definition bound (k : Key) : bool :=
  (match Keys k with [] => false | _ => true end
   || match Runes k with [] => false | _ => true end)
  && negb (util.isEmptyString (Description k)).

(** The names under which the toolkit reports the keys and runes of a
    binding all trigger it. *)
Definition triggers (k : Key) : bool :=
  forallb (fun name => match Contains k name with
                       | Some true => true
                       | _ => false
                       end) (Keys k)
  && forallb (fun r => match Contains k ("Rune[" ++ r ++ "]") with
                       | Some true => true
                       | _ => false
                       end) (Runes k).

(** *** Loading *)

Section Loading.

(** The file system and the JSON codec as [LoadKeybindings] meets them. *)
Variable GetConfigDir : string * option error.
Variable ReadFile : string -> string * option error.
Variable IsNotExist : error -> bool.
Variable Getenv : string -> string.
Variable ensureConfigDirExist : option error.
Variable Marshal : Value -> string * option error.
Variable WriteFile : string -> string -> option error.
Variable Unmarshal : string -> Value -> Value * option error.

Definition getKeybindingsPath : string * option error :=
  let (configDir, e) := GetConfigDir in
  match e with
  | Some e => (EmptyString, Some e)
  | None => (configDir ++ "/keybindings.json", None)
  end.

(** What [LoadKeybindings] returns and the file it wrote, if any. *)
Record loaded : Type :=
  { bindings : option Value;
    err : option error;
    written : option (string * string) }.

Definition failed (e : error) : loaded :=
  {| bindings := None; err := Some e; written := None |}.

Definition LoadKeybindings : loaded :=
  let defaultKeybindings := loadDefaultKeybindings in
  let (keybindingsPath, e) := getKeybindingsPath in
  match e with
  | Some e => failed e
  | None =>
      let (bytes, e) := ReadFile keybindingsPath in
      match e with
      | Some e =>
          if IsNotExist e then
            if String.eqb (Getenv "ENV") "vi-dev"
            then {| bindings := Some defaultKeybindings; err := None;
                    written := None |}
            else
              match ensureConfigDirExist with
              | Some e => failed e
              | None =>
                  let (bytes, e) := Marshal defaultKeybindings in
                  match e with
                  | Some e => failed e
                  | None =>
                      match WriteFile keybindingsPath bytes with
                      | Some e => failed e
                      | None =>
                          {| bindings := Some defaultKeybindings; err := None;
                             written := Some (keybindingsPath, bytes) |}
                      end
                  end
              end
          else failed e
      | None =>
          let (keybindings, e) := Unmarshal bytes (zero defaultKeybindings) in
          match e with
          | Some e => failed e
          | None =>
              {| bindings := Some (util.MergeConfigs keybindings defaultKeybindings);
                 err := None; written := None |}
          end
      end
  end.

End Loading.

End keys.

(* ================================================================== *)
(** ** States used as concrete inputs                                  *)
(* ================================================================== *)

Module examples.

Import core.

(** A main page with two panes; the first takes the focus when the page
    is focused. *)
Definition Databases : tview.Primitive := tview.Prim "Databases" [].
Definition Content : tview.Primitive := tview.Prim "Content" [].
Definition Main : tview.Primitive :=
  tview.Prim "Main" [(Databases, true); (Content, false)].

Definition overlayA : tview.Primitive := tview.Prim "A" [].
Definition overlayB : tview.Primitive := tview.Prim "B" [].

Definition defaults : config.Config :=
  {| config.Styles_ :=
       {| config.CurrentStyle := "default"; config.BetterSymbols := false |} |}.

(** The application as [NewApp] leaves it when both loaders succeed. *)
Definition fresh : App string unit :=
  {| Application := tview.NewApplication;
     Pages_ := PagesSetStyle string (Some "default") (NewPages string);
     manager_ := manager.NewElementManager;
     styles := Some "default";
     config_ := defaults;
     keys := Some tt;
     previousFocus := None |}.

(** Start-up: the main page is added and the pages become the root;
    then the user moves to the content pane. *)
Definition atStart : App string unit :=
  SetRoot (AddPage "Main" Main true true fresh).

Definition base : App string unit := SetFocus Content atStart.

(** An overlay is open above the main page. *)
Definition withA : App string unit := AddPage "A" overlayA true true base.

Definition nested : list call :=
  [ShowPage "A" overlayA true true; ShowPage "B" overlayB true true;
   HidePage "B"; HidePage "A"].

(** Collaborators for [SetStyle]: persistence that fails, persistence
    that works, a loader that knows one style. *)
Definition failingUpdate (_ : config.Config) : option error :=
  Some "open config.yaml: permission denied".

Definition workingUpdate (_ : config.Config) : option error := None.

Definition loadDefaultOnly (name : string) (_ : bool)
    : option string * option error :=
  if String.eqb name "default" then (Some name, None)
  else (None, Some "style file not found").

(** History files. *)
Definition noHistory : component.fs :=
  {| component.history_txt := None; component.openFault := None;
     component.readFault := None; component.writeFault := None |}.

Definition history (s : string) : component.fs :=
  {| component.history_txt := Some s; component.openFault := None;
     component.readFault := None; component.writeFault := None |}.

Definition typing (s : string) : component.World :=
  {| component.bar :=
       {| component.label := "Query"; component.enabled := true;
          component.autocompleteOn := false; component.docKeys := [];
          component.text_ := s |};
     component.components := [component.InputBarComponent; "Content"];
     component.files := noHistory;
     component.called := [];
     component.logged := [] |}.

(** A user's file that rebinds closing the help to the rune q and says
    nothing else, and the defaults for it. *)
Definition helpLoaded : reflect.Value :=
  reflect.Struct "HelpKeys" [("Close", keys.key [] ["q"] EmptyString)].

Definition helpDefault : reflect.Value :=
  reflect.Struct "HelpKeys" [("Close", keys.key ["Esc"] [] "Close help")].

(** A collection with one document. *)
Definition ada : mongo.M :=
  [("_id", mongo.VObjectID 1); ("name", mongo.VString "Ada")].

Definition store : mongo.Dao :=
  mongo.NewDao
    {| mongo.documents := fun db coll =>
         if String.eqb db "app" && String.eqb coll "users" then [ada] else [] |}.

End examples.

(* ================================================================== *)
(** ** Facts about the toolkit                                         *)
(* ================================================================== *)

Module tview_facts.

Import tview.

Lemma focusTarget_unfold id items :
  focusTarget (Prim id items) =
  match firstFocus items with
  | Some t => t
  | None => Prim id items
  end.
Proof. reflexivity. Qed.

Lemma holds_unfold i id items :
  holds i (Prim id items) = anyHolds i items || String.eqb id i.
Proof. reflexivity. Qed.

Lemma firstFocus_cons c b r :
  firstFocus ((c, b) :: r) = if b then Some (focusTarget c) else firstFocus r.
Proof. destruct b; reflexivity. Qed.

Lemma anyHolds_cons i c b r :
  anyHolds i ((c, b) :: r) = holds i c || anyHolds i r.
Proof. reflexivity. Qed.

(** What a container hands the focus to is the target of one of its
    items. *)
Lemma firstFocus_item items t :
  firstFocus items = Some t ->
  exists c, In (c, true) items /\ t = focusTarget c.
Proof.
  induction items as [|[c b] r IH]; [discriminate|].
  rewrite firstFocus_cons. destruct b.
  - intros [= <-]. exists c. split; [left; reflexivity | reflexivity].
  - intros H. destruct (IH H) as (c' & Hin & ->).
    exists c'. split; [right; exact Hin | reflexivity].
Qed.

(** Focusing what already keeps the focus changes nothing. *)
Lemma focusTarget_idempotent p :
  focusTarget (focusTarget p) = focusTarget p.
Proof.
  induction p as [id items IH] using Primitive_items_ind.
  rewrite focusTarget_unfold.
  destruct (firstFocus items) as [t|] eqn:E.
  - destruct (firstFocus_item _ _ E) as (c & Hin & ->).
    rewrite Forall_forall in IH. exact (IH _ Hin).
  - rewrite focusTarget_unfold, E. reflexivity.
Qed.

Lemma anyHolds_item i c b items :
  In (c, b) items -> holds i c = true -> anyHolds i items = true.
Proof.
  induction items as [|[c' b'] r IH]; [intros []|].
  rewrite anyHolds_cons. intros [[= -> ->]|Hin] Hc.
  - rewrite Hc. reflexivity.
  - rewrite (IH Hin Hc). apply orb_true_r.
Qed.

(** The primitive that ends up focused sits in the one that was asked. *)
Lemma holds_focusTarget p :
  holds (GetIdentifier (focusTarget p)) p = true.
Proof.
  induction p as [id items IH] using Primitive_items_ind.
  rewrite focusTarget_unfold.
  destruct (firstFocus items) as [t|] eqn:E.
  - destruct (firstFocus_item _ _ E) as (c & Hin & ->).
    rewrite holds_unfold.
    rewrite Forall_forall in IH.
    pose proof (IH _ Hin) as Hc. simpl in Hc.
    rewrite (anyHolds_item _ c true items Hin Hc). reflexivity.
  - rewrite holds_unfold. simpl. rewrite String.eqb_refl. apply orb_true_r.
Qed.

Lemma HasFocus_SetFocus p a : HasFocus (SetFocus p a) p = true.
Proof. unfold HasFocus, SetFocus; simpl. apply holds_focusTarget. Qed.

(** *** Pages *)

Lemma HasPage_false_not_in name p :
  HasPage name p = false <-> ~ In name (names (pages p)).
Proof.
  unfold HasPage, names. induction (pages p) as [|pg r IH]; simpl.
  - split; [intros _ [] | reflexivity].
  - rewrite orb_false_iff, IH. split.
    + intros [Hne Hr] [Heq|Hin]; [|exact (Hr Hin)].
      subst. rewrite String.eqb_refl in Hne. discriminate.
    + intros H. split.
      * destruct (String.eqb_spec (Name pg) name); [|reflexivity].
        exfalso. apply H. left. assumption.
      * intros Hin. apply H. right. exact Hin.
Qed.

Lemma dropPage_absent name ps :
  ~ In name (names ps) -> dropPage name ps = ps.
Proof.
  induction ps as [|pg r IH]; simpl; [reflexivity|]. intros H.
  destruct (String.eqb_spec (Name pg) name) as [e|_].
  - exfalso. apply H. left. exact e.
  - f_equal. apply IH. intros Hin. apply H. right. exact Hin.
Qed.

Lemma findPage_absent name ps :
  ~ In name (names ps) -> findPage name ps = None.
Proof.
  induction ps as [|pg r IH]; simpl; [reflexivity|]. intros H.
  destruct (String.eqb_spec (Name pg) name) as [e|_].
  - exfalso. apply H. left. exact e.
  - apply IH. intros Hin. apply H. right. exact Hin.
Qed.

Lemma dropPage_names_incl name ps n :
  In n (names (dropPage name ps)) -> In n (names ps).
Proof.
  induction ps as [|pg r IH]; simpl; [intros []|].
  destruct (String.eqb (Name pg) name); simpl.
  - intros H. right. exact H.
  - intros [H|H]; [left; exact H | right; exact (IH H)].
Qed.

Lemma dropPage_NoDup name ps :
  NoDup (names ps) -> NoDup (names (dropPage name ps)).
Proof.
  induction ps as [|pg r IH]; simpl; [intros H; exact H|].
  intros H. inversion H as [|x l Hx Hr]; subst.
  destruct (String.eqb (Name pg) name); simpl; [exact Hr|].
  constructor; [|exact (IH Hr)].
  intros Hin. apply Hx. exact (dropPage_names_incl _ _ _ Hin).
Qed.

(** Where names are not repeated, dropping a name leaves none of it. *)
Lemma dropPage_gone name ps :
  NoDup (names ps) -> ~ In name (names (dropPage name ps)).
Proof.
  induction ps as [|pg r IH]; simpl; [intros _ []|].
  intros H. inversion H as [|x l Hx Hr]; subst.
  destruct (String.eqb_spec (Name pg) name) as [e|ne]; simpl.
  - subst. exact Hx.
  - intros [e|Hin]; [exact (ne e) | exact (IH Hr Hin)].
Qed.

Lemma ensureVisible_names ps : names (ensureVisible ps) = names ps.
Proof.
  induction ps as [|pg r IH]; [reflexivity|].
  destruct r as [|pg' r']; [reflexivity|].
  change (ensureVisible (pg :: pg' :: r'))
    with (if Visible pg then pg :: pg' :: r' else pg :: ensureVisible (pg' :: r')).
  destruct (Visible pg); [reflexivity|].
  change (names (pg :: ensureVisible (pg' :: r')))
    with (Name pg :: names (ensureVisible (pg' :: r'))).
  rewrite IH. reflexivity.
Qed.

Lemma show_visible pg : Visible pg = true -> show pg = pg.
Proof. destruct pg as [n i r v]; unfold show; simpl. intros ->. reflexivity. Qed.

(** A visible last page is left as it is. *)
Lemma ensureVisible_top ps pg :
  Visible pg = true -> ensureVisible (ps ++ [pg])%list = (ps ++ [pg])%list.
Proof.
  intros Hv. induction ps as [|q r IH].
  - simpl. rewrite (show_visible _ Hv). reflexivity.
  - change ((q :: r) ++ [pg])%list with (q :: (r ++ [pg]))%list.
    destruct (r ++ [pg])%list as [|x l] eqn:E.
    + destruct r; discriminate.
    + change (ensureVisible (q :: x :: l))
        with (if Visible q then q :: x :: l else q :: ensureVisible (x :: l)).
      destruct (Visible q); [reflexivity|]. rewrite IH. reflexivity.
Qed.

Lemma topItem_top ps pg :
  Visible pg = true -> topItem (ps ++ [pg])%list = Some (Item pg).
Proof.
  intros Hv. induction ps as [|q r IH]; simpl.
  - rewrite Hv. reflexivity.
  - rewrite IH. reflexivity.
Qed.

Lemma dropPage_top name ps pg :
  ~ In name (names ps) -> Name pg = name ->
  dropPage name (ps ++ [pg])%list = ps.
Proof.
  intros Hn Hp. induction ps as [|q r IH]; simpl.
  - rewrite Hp, String.eqb_refl. reflexivity.
  - destruct (String.eqb_spec (Name q) name) as [e|_].
    + exfalso. apply Hn. left. exact e.
    + f_equal. apply IH. intros Hin. apply Hn. right. exact Hin.
Qed.

Lemma findPage_top name ps pg :
  ~ In name (names ps) -> Name pg = name ->
  findPage name (ps ++ [pg])%list = Some pg.
Proof.
  intros Hn Hp. induction ps as [|q r IH]; simpl.
  - rewrite Hp, String.eqb_refl. reflexivity.
  - destruct (String.eqb_spec (Name q) name) as [e|_].
    + exfalso. apply Hn. left. exact e.
    + apply IH. intros Hin. apply Hn. right. exact Hin.
Qed.

Lemma PagesHasFocus_top a p pg ps :
  pages p = (ps ++ [pg])%list -> HasFocus a (Item pg) = true ->
  PagesHasFocus a p = true.
Proof.
  unfold PagesHasFocus. intros -> H.
  rewrite existsb_app. simpl. rewrite H. rewrite orb_true_r. reflexivity.
Qed.

End tview_facts.

(* ================================================================== *)
(** ** Pages and focus                                                 *)
(* ================================================================== *)

Module core_facts.

Import core tview_facts.

Section Orchestration.

Variables Styles KeyBindings : Type.

Abbreviation App := (core.App Styles KeyBindings).

Implicit Types (a : App) (id : tview.Identifier) (p view : tview.Primitive).

(** *** What each operation does to the three parts of the state *)

Lemma PageStack_AddPage id view resize visible a :
  PageStack (AddPage id view resize visible a) =
  (tview.dropPage id (PageStack a) ++
   [{| tview.Name := id; tview.Item := view;
       tview.Resize := resize; tview.Visible := visible |}])%list.
Proof.
  unfold AddPage.
  match goal with |- context [if ?c then _ else _] => destruct c end;
    reflexivity.
Qed.

Lemma previousFocus_AddPage id view resize visible a :
  previousFocus (AddPage id view resize visible a) = GetFocus a.
Proof.
  unfold AddPage.
  match goal with |- context [if ?c then _ else _] => destruct c end;
    reflexivity.
Qed.

Lemma previousFocus_GiveBackFocus a :
  previousFocus (GiveBackFocus a) = None.
Proof.
  unfold GiveBackFocus. destruct (previousFocus a) eqn:E; [reflexivity | exact E].
Qed.

Lemma PageStack_GiveBackFocus a :
  PageStack (GiveBackFocus a) = PageStack a.
Proof. unfold GiveBackFocus. destruct (previousFocus a); reflexivity. Qed.

Lemma previousFocus_RemovePage id a :
  previousFocus (RemovePage id a) = None.
Proof. unfold RemovePage. apply previousFocus_GiveBackFocus. Qed.

Lemma PageStack_RemovePage id a :
  PageStack (RemovePage id a) =
  if match tview.findPage id (PageStack a) with
     | Some pg => tview.Visible pg
     | None => false
     end
  then tview.ensureVisible (tview.dropPage id (PageStack a))
  else tview.dropPage id (PageStack a).
Proof. unfold RemovePage. rewrite PageStack_GiveBackFocus. reflexivity. Qed.

Lemma names_RemovePage id a :
  tview.names (PageStack (RemovePage id a)) =
  tview.names (tview.dropPage id (PageStack a)).
Proof.
  rewrite PageStack_RemovePage.
  match goal with |- context [if ?c then _ else _] => destruct c end;
    [apply ensureVisible_names | reflexivity].
Qed.

Lemma FocusDepth_le_1 a : FocusDepth a <= 1.
Proof. unfold FocusDepth, FocusStack. destruct (previousFocus a); simpl; lia. Qed.

(** *** Depths *)

Lemma depth_step c a : FocusDepth (step c a) <= PageDepth (step c a).
Proof.
  destruct c as [id view r v | id]; simpl.
  - unfold PageDepth. rewrite PageStack_AddPage, length_app. simpl.
    pose proof (FocusDepth_le_1 (AddPage id view r v a)). lia.
  - unfold FocusDepth, FocusStack. rewrite previousFocus_RemovePage. simpl. lia.
Qed.

Lemma depth_run cs a :
  FocusDepth a <= PageDepth a ->
  FocusDepth (run cs a) <= PageDepth (run cs a).
Proof.
  revert a. induction cs as [|c r IH]; intros a H; simpl; [exact H|].
  apply IH, depth_step.
Qed.

(** *** Matched sequences *)

Lemma pending_show open id view resize visible a :
  pending open a -> pending (id :: open) (AddPage id view resize visible a).
Proof.
  intros (Hnd & Hin & _). unfold pending.
  rewrite PageStack_AddPage. unfold tview.names. rewrite map_app. simpl.
  split; [|split].
  - apply NoDup_app; [apply dropPage_NoDup, Hnd | repeat constructor; intros [] |].
    intros n Hn [<-|[]]. exact (dropPage_gone _ _ Hnd Hn).
  - intros n Hn. apply in_app_or in Hn as [Hn|[<-|[]]].
    + right. apply Hin. exact (dropPage_names_incl _ _ _ Hn).
    + left. reflexivity.
  - discriminate.
Qed.

Lemma pending_hide open id a :
  pending (id :: open) a -> pending open (RemovePage id a).
Proof.
  intros (Hnd & Hin & _). unfold pending.
  rewrite names_RemovePage. split; [|split].
  - apply dropPage_NoDup, Hnd.
  - intros n Hn.
    destruct (Hin n (dropPage_names_incl _ _ _ Hn)) as [<-|H]; [|exact H].
    exfalso. exact (dropPage_gone _ _ Hnd Hn).
  - intros _. apply previousFocus_RemovePage.
Qed.

Lemma matched_run open cs a :
  pending open a -> matchedFrom open cs = true ->
  PageStack (run cs a) = [] /\ previousFocus (run cs a) = None.
Proof.
  revert open a. induction cs as [|c r IH]; intros open a Hp Hm.
  - simpl in *. destruct open; [|discriminate].
    destruct Hp as (_ & Hin & Hprev). split; [|apply Hprev; reflexivity].
    destruct (PageStack a) as [|pg ps]; [reflexivity|].
    destruct (Hin (tview.Name pg)). left. reflexivity.
  - destruct c as [id view rs v | id]; simpl in Hm |- *.
    + apply (IH (id :: open)); [apply pending_show, Hp | exact Hm].
    + destruct open as [|top rest]; [discriminate|].
      apply andb_true_iff in Hm as [He Hm].
      apply String.eqb_eq in He. subst top.
      apply (IH rest); [apply pending_hide, Hp | exact Hm].
Qed.

Lemma initial_pending a : initial a -> pending [] a.
Proof.
  intros [Hp Hf]. unfold pending. rewrite Hp. simpl.
  split; [constructor | split; [intros n [] | intros _; exact Hf]].
Qed.

(** C6.  Over every sequence of ShowPage and HidePage calls run from
    the initial state, the depth of the Focus Stack is at most the
    depth of the Page Stack in the state reached; and when the calls
    are matched, both stacks are back at their initial depth. *)
Theorem focus_depth_bounded_and_matched_calls_restore_depths a0 cs :
  initial a0 ->
  FocusDepth (run cs a0) <= PageDepth (run cs a0) /\
  (matched cs = true ->
   PageDepth (run cs a0) = PageDepth a0 /\
   FocusDepth (run cs a0) = FocusDepth a0).
Proof.
  intros Hi. split.
  - apply depth_run. destruct Hi as [Hp Hf].
    unfold FocusDepth, PageDepth, FocusStack. rewrite Hp, Hf. simpl. lia.
  - intros Hm.
    destruct (matched_run [] cs a0 (initial_pending _ Hi) Hm) as [Hp Hf].
    destruct Hi as [Hp0 Hf0].
    unfold FocusDepth, PageDepth, FocusStack.
    rewrite Hp, Hf, Hp0, Hf0. split; reflexivity.
Qed.


(** *** Focus *)

Lemma GetFocus_SetFocus p a : GetFocus (SetFocus p a) = Some (tview.focusTarget p).
Proof. reflexivity. Qed.

Lemma previousFocus_SetFocus p a : previousFocus (SetFocus p a) = GetFocus a.
Proof. reflexivity. Qed.

Lemma SetFocus_holdsFocus p a : holdsFocus (SetFocus p a) (tview.focusTarget p).
Proof. split; [reflexivity | apply focusTarget_idempotent]. Qed.

Lemma GetFocus_GiveBackFocus a :
  GetFocus (GiveBackFocus a) =
  match previousFocus a with
  | Some p => Some (tview.focusTarget p)
  | None => GetFocus a
  end.
Proof. unfold GiveBackFocus. destruct (previousFocus a); reflexivity. Qed.

Lemma broadcasts_GiveBackFocus a :
  broadcasts (GiveBackFocus a) =
  match previousFocus a with
  | Some p => (broadcasts a ++ [focusChanged p])%list
  | None => broadcasts a
  end.
Proof. unfold GiveBackFocus. destruct (previousFocus a); reflexivity. Qed.

Lemma setFocus_AddPage id view resize visible a :
  tview.setFocus (tview_Pages (Pages_ (AddPage id view resize visible a))) =
  tview.setFocus (tview_Pages (Pages_ a)).
Proof.
  unfold AddPage.
  match goal with |- context [if ?c then _ else _] => destruct c end;
    reflexivity.
Qed.

Lemma setFocus_RemovePage id a :
  tview.setFocus (tview_Pages (Pages_ (RemovePage id a))) =
  tview.setFocus (tview_Pages (Pages_ a)).
Proof.
  unfold RemovePage, GiveBackFocus.
  match goal with |- context [match ?c with Some _ => _ | None => _ end] =>
    destruct c end; reflexivity.
Qed.

Lemma pagesFocused_parts a :
  pagesFocused a = true ->
  tview.PagesHasFocus (Application a) (tview_Pages (Pages_ a)) = true /\
  tview.setFocus (tview_Pages (Pages_ a)) = true.
Proof. unfold pagesFocused. intros H. apply andb_true_iff in H. exact H. Qed.

(** With the pages focused, a page shown visible takes the focus and
    the change is broadcast. *)
Lemma AddPage_focused id view resize a :
  pagesFocused a = true ->
  GetFocus (AddPage id view resize true a) = Some (tview.focusTarget view) /\
  broadcasts (AddPage id view resize true a) =
    (broadcasts a ++ [focusChanged view])%list.
Proof.
  intros H. destruct (pagesFocused_parts _ H) as [Hf Hs].
  unfold AddPage, SetPreviousFocus, tview.AddPage, tview.PagesFocus.
  cbn [Application Pages_ tview_Pages withPreviousFocus withToolkit fst snd
       tview.withPages tview.setFocus tview.pages].
  rewrite Hf, Hs, topItem_top by reflexivity.
  cbn [tview.Item andb]. rewrite HasFocus_SetFocus. split; reflexivity.
Qed.

(** The page just put on top keeps the pages focused once it has the
    focus. *)
Lemma pagesFocused_top a ps pg :
  PageStack a = (ps ++ [pg])%list ->
  tview.HasFocus (Application a) (tview.Item pg) = true ->
  tview.setFocus (tview_Pages (Pages_ a)) = true ->
  pagesFocused a = true.
Proof.
  intros Hp Hf Hs. unfold pagesFocused. rewrite Hs, andb_true_r.
  exact (PagesHasFocus_top _ _ _ _ Hp Hf).
Qed.

Lemma HasFocus_target a view :
  GetFocus a = Some (tview.focusTarget view) ->
  tview.HasFocus (Application a) view = true.
Proof.
  unfold GetFocus, tview.GetFocus, tview.HasFocus. intros ->.
  apply holds_focusTarget.
Qed.

(** Hiding the visible page on top: the page goes, and the focus goes
    to what was recorded, or else where the toolkit put it. *)
Lemma RemovePage_top id a ps pg :
  pagesFocused a = true ->
  PageStack a = (ps ++ [pg])%list ->
  tview.Name pg = id -> ~ In id (tview.names ps) -> tview.Visible pg = true ->
  PageStack (RemovePage id a) = tview.ensureVisible ps /\
  GetFocus (RemovePage id a) =
    match previousFocus a with
    | Some p => Some (tview.focusTarget p)
    | None => defaultFocus (tview.ensureVisible ps) (GetFocus a)
    end.
Proof.
  intros H Hp Hn Hni Hv. destruct (pagesFocused_parts _ H) as [Hf Hs].
  split.
  - rewrite PageStack_RemovePage, Hp.
    rewrite (findPage_top _ _ _ Hni Hn), Hv, (dropPage_top _ _ _ Hni Hn).
    reflexivity.
  - unfold RemovePage. rewrite GetFocus_GiveBackFocus.
    cbn [previousFocus withToolkit].
    destruct (previousFocus a); [reflexivity|].
    unfold GetFocus, tview.RemovePage, tview.PagesFocus, defaultFocus.
    cbn [Application withToolkit fst tview.withPages tview.setFocus tview.pages].
    rewrite Hf, Hs.
    unfold PageStack in Hp. rewrite Hp.
    rewrite (findPage_top _ _ _ Hni Hn), Hv, (dropPage_top _ _ _ Hni Hn).
    destruct (tview.topItem (tview.ensureVisible ps)); reflexivity.
Qed.

Lemma names_snoc ps pg :
  tview.names (ps ++ [pg]) = (tview.names ps ++ [tview.Name pg])%list.
Proof. unfold tview.names. rewrite map_app. reflexivity. Qed.

Lemma HasPage_absent id a :
  HasPage id a = false -> ~ In id (tview.names (PageStack a)).
Proof. unfold HasPage, PageStack. apply HasPage_false_not_in. Qed.

Lemma settled_toolkit_SetFocus t (a : App) :
  settled (withApplication (tview.SetFocus t (Application a)) a).
Proof. unfold settled; simpl. apply focusTarget_idempotent. Qed.

Lemma settled_SetFocus p a : settled (SetFocus p a).
Proof. unfold settled; simpl. apply focusTarget_idempotent. Qed.

Lemma settled_GiveBackFocus a : settled a -> settled (GiveBackFocus a).
Proof.
  unfold GiveBackFocus. destruct (previousFocus a); [|intros H; exact H].
  intros _. unfold settled; simpl. apply focusTarget_idempotent.
Qed.

Lemma settled_PagesFocus (a : App) tp :
  settled a ->
  settled (withToolkit (tview.PagesFocus (Application a) tp, tp) a).
Proof.
  intros H. unfold tview.PagesFocus.
  destruct (tview.setFocus tp); [|exact H].
  destruct (tview.topItem (tview.pages tp)); [|exact H].
  unfold settled; simpl. apply focusTarget_idempotent.
Qed.

Lemma settled_step c a : settled a -> settled (step c a).
Proof.
  intros H. destruct c as [id view r v | id]; cbn [step].
  - unfold AddPage, tview.AddPage.
    match goal with |- context [tview.withPages ?ps ?tp] =>
      set (tp' := tview.withPages ps tp) end.
    assert (H' : settled
              (withToolkit
                 (if tview.PagesHasFocus (Application (SetPreviousFocus a))
                       (tview_Pages (Pages_ (SetPreviousFocus a)))
                  then tview.PagesFocus (Application (SetPreviousFocus a)) tp'
                  else Application (SetPreviousFocus a), tp')
                 (SetPreviousFocus a))).
    { destruct (tview.PagesHasFocus _ _); [|exact H].
      exact (settled_PagesFocus (SetPreviousFocus a) tp' H). }
    match goal with |- context [if ?c then FocusChanged _ _ else _] =>
      destruct c end; exact H'.
  - unfold RemovePage, tview.RemovePage.
    match goal with |- context [tview.withPages ?ps ?tp] =>
      set (tp' := tview.withPages ps tp) end.
    apply settled_GiveBackFocus.
    destruct (tview.PagesHasFocus _ _); [|exact H].
    exact (settled_PagesFocus a tp' H).
Qed.

Lemma settled_run cs a : settled a -> settled (run cs a).
Proof.
  revert a. induction cs as [|c r IH]; intros a H; simpl; [exact H|].
  apply IH, settled_step, H.
Qed.

Lemma settled_holdsFocus a f : settled a -> GetFocus a = Some f -> holdsFocus a f.
Proof. unfold settled. intros H E. rewrite E in H. split; assumption. Qed.

(** C4.  Whatever view [v] is given the focus by SetFocus, and
    whatever view [f] held the focus just before, GiveBackFocus called
    right after puts the focus back on [f]. *)
Theorem SetFocus_then_GiveBackFocus_restores a v f :
  holdsFocus a f ->
  GetFocus (GiveBackFocus (SetFocus v a)) = Some f.
Proof.
  intros [Hf Hk].
  rewrite GetFocus_GiveBackFocus, previousFocus_SetFocus, Hf, Hk.
  reflexivity.
Qed.

Lemma broadcasts_AddPage id view resize visible a :
  broadcasts (AddPage id view resize visible a) =
  if visible && tview.HasFocus (Application (AddPage id view resize visible a)) view
  then (broadcasts a ++ [focusChanged view])%list
  else broadcasts a.
Proof.
  unfold AddPage.
  match goal with |- context [if ?c then FocusChanged _ _ else _] =>
    destruct c eqn:E end.
  - cbn [Application FocusChanged withManager]. rewrite E. reflexivity.
  - rewrite E. reflexivity.
Qed.

(** C2, as amended.  A ShowPage call with visible = true records the
    view that has the focus (or none) in the one previous-focus field,
    in place of what was recorded; it puts the page on top of the Page
    Stack, in place of the page of that id; FocusChanged with the
    view's identifier is broadcast exactly when the view has the focus
    after the call; and when the pages hold the focus, the focus goes
    to the new view (to the item the view hands it to), so the event is
    broadcast. *)
Theorem ShowPage_visible_records_adds_focuses a id view resizable :
  let a' := step (ShowPage id view resizable true) a in
  previousFocus a' = GetFocus a /\
  FocusStack a' = match GetFocus a with Some f => [f] | None => [] end /\
  PageStack a' =
    (tview.dropPage id (PageStack a) ++
     [{| tview.Name := id; tview.Item := view;
         tview.Resize := resizable; tview.Visible := true |}])%list /\
  broadcasts a' =
    (if tview.HasFocus (Application a') view
     then (broadcasts a ++ [focusChanged view])%list
     else broadcasts a) /\
  (pagesFocused a = true ->
   GetFocus a' = Some (tview.focusTarget view) /\
   tview.HasFocus (Application a') view = true /\
   broadcasts a' = (broadcasts a ++ [focusChanged view])%list).
Proof.
  cbn [step]. split; [apply previousFocus_AddPage|].
  split; [unfold FocusStack; rewrite previousFocus_AddPage; reflexivity|].
  split; [apply PageStack_AddPage|].
  split; [apply (broadcasts_AddPage id view resizable true a)|].
  intros H. destruct (AddPage_focused id view resizable a H) as [Hf Hb].
  split; [exact Hf|]. split; [exact (HasFocus_target _ _ Hf) | exact Hb].
Qed.

(** C1, as amended.  From a state where the pages hold the focus, show
    overlay A, show overlay B, hide B, hide A (neither id being shown
    before): A takes the focus, then B; hiding B gives the focus back
    to A and leaves nothing recorded; hiding A leaves the focus where
    the toolkit puts it, on the top visible page that remains. *)
Theorem nested_overlays_focus a0 ida A ra idb B rb :
  pagesFocused a0 = true ->
  HasPage ida a0 = false -> HasPage idb a0 = false -> ida <> idb ->
  let a1 := step (ShowPage ida A ra true) a0 in
  let a2 := step (ShowPage idb B rb true) a1 in
  let a3 := step (HidePage idb) a2 in
  let a4 := step (HidePage ida) a3 in
  GetFocus a1 = Some (tview.focusTarget A) /\
  GetFocus a2 = Some (tview.focusTarget B) /\
  GetFocus a3 = GetFocus a1 /\
  previousFocus a3 = None /\
  PageStack a4 = tview.ensureVisible (PageStack a0) /\
  GetFocus a4 = defaultFocus (PageStack a4) (GetFocus a1).
Proof.
  intros H0 Ha Hb Hab. cbn [step]. cbv zeta.
  apply HasPage_absent in Ha, Hb.
  destruct (pagesFocused_parts _ H0) as [_ Hs0].
  set (pgA := {| tview.Name := ida; tview.Item := A;
                 tview.Resize := ra; tview.Visible := true |}).
  set (pgB := {| tview.Name := idb; tview.Item := B;
                 tview.Resize := rb; tview.Visible := true |}).
  (* A shown *)
  destruct (AddPage_focused ida A ra a0 H0) as [F1 _].
  assert (P1 : PageStack (AddPage ida A ra true a0) = (PageStack a0 ++ [pgA])%list).
  { rewrite PageStack_AddPage, (dropPage_absent _ _ Ha). reflexivity. }
  assert (S1 := setFocus_AddPage ida A ra true a0). rewrite Hs0 in S1.
  assert (H1 := pagesFocused_top _ _ pgA P1 (HasFocus_target _ _ F1) S1).
  set (a1 := AddPage ida A ra true a0) in *.
  (* B shown *)
  destruct (AddPage_focused idb B rb a1 H1) as [F2 _].
  assert (Hb1 : ~ In idb (tview.names (PageStack a1))).
  { rewrite P1, names_snoc. intros Hin.
    apply in_app_or in Hin as [Hin|[e|[]]]; [exact (Hb Hin)|].
    apply Hab. exact e. }
  assert (P2 : PageStack (AddPage idb B rb true a1) = (PageStack a1 ++ [pgB])%list).
  { rewrite PageStack_AddPage, (dropPage_absent _ _ Hb1). reflexivity. }
  assert (S2 := setFocus_AddPage idb B rb true a1). rewrite S1 in S2.
  assert (H2 := pagesFocused_top _ _ pgB P2 (HasFocus_target _ _ F2) S2).
  assert (V2 : previousFocus (AddPage idb B rb true a1) = GetFocus a1)
    by apply previousFocus_AddPage.
  set (a2 := AddPage idb B rb true a1) in *.
  (* B hidden *)
  destruct (RemovePage_top idb a2 _ pgB H2 P2 eq_refl Hb1 eq_refl) as [P3 F3].
  rewrite V2, F1, focusTarget_idempotent in F3.
  rewrite P1, ensureVisible_top in P3 by reflexivity.
  assert (S3 := setFocus_RemovePage idb a2). rewrite S2 in S3.
  assert (H3 := pagesFocused_top _ _ pgA P3 (HasFocus_target _ _ F3) S3).
  assert (V3 : previousFocus (RemovePage idb a2) = None)
    by apply previousFocus_RemovePage.
  set (a3 := RemovePage idb a2) in *.
  (* A hidden *)
  destruct (RemovePage_top ida a3 _ pgA H3 P3 eq_refl Ha eq_refl) as [P4 F4].
  rewrite V3, F3 in F4.
  repeat split; try assumption.
  - rewrite F3, F1. reflexivity.
  - rewrite P4, F1. exact F4.
Qed.


(** *** Hiding a page that is not there *)

Lemma pagesFocused_no_pages a : PageStack a = [] -> pagesFocused a = false.
Proof.
  unfold PageStack, pagesFocused, tview.PagesHasFocus. intros ->. reflexivity.
Qed.

(** The toolkit's pages are left alone; with nothing recorded and the
    focus already where the toolkit puts it, so is everything else. *)
Lemma RemovePage_absent_unchanged id a :
  HasPage id a = false ->
  previousFocus a = None ->
  (pagesFocused a = true -> defaultFocus (PageStack a) (GetFocus a) = GetFocus a) ->
  RemovePage id a = a.
Proof.
  intros Hn Hp Hd. apply HasPage_absent in Hn.
  destruct a as [[f] [[ps sf] st] m sty cfg k prev].
  unfold PageStack, pagesFocused, GetFocus, defaultFocus in *.
  cbn [Application Pages_ tview_Pages previousFocus tview.pages
       tview.setFocus tview.GetFocus tview.focus] in *.
  subst prev.
  unfold RemovePage, tview.RemovePage, tview.PagesFocus, GiveBackFocus,
    withToolkit, tview.withPages.
  cbn [Application Pages_ tview_Pages previousFocus tview.pages
       tview.setFocus fst snd style manager_ styles config_ keys].
  rewrite (findPage_absent _ _ Hn), (dropPage_absent _ _ Hn).
  destruct (tview.PagesHasFocus {| tview.focus := f |}
              {| tview.pages := ps; tview.setFocus := sf |}); [|reflexivity].
  destruct sf; [|reflexivity].
  specialize (Hd eq_refl).
  destruct (tview.topItem ps) as [t|]; [|reflexivity].
  unfold tview.SetFocus. rewrite Hd. reflexivity.
Qed.

(** After matched calls from the initial state there is nothing to
    undo: hiding any page changes nothing. *)
Lemma HidePage_after_matched_calls a0 cs id :
  initial a0 -> matched cs = true ->
  step (HidePage id) (run cs a0) = run cs a0.
Proof.
  intros Hi Hm.
  destruct (matched_run [] cs a0 (initial_pending _ Hi) Hm) as [Hp Hf].
  apply RemovePage_absent_unchanged.
  - unfold HasPage, tview.HasPage. unfold PageStack in Hp. rewrite Hp. reflexivity.
  - exact Hf.
  - rewrite (pagesFocused_no_pages _ Hp). discriminate.
Qed.

(** C3, as amended.  HidePage of an id that is not in the Page Stack
    never fails and leaves the Page Stack as it is, and the Focus
    Stack empty.  When a previous focus is recorded it is given back:
    the focus goes to the recorded view and the change is broadcast.
    When nothing is recorded and the focus is where the toolkit puts
    it (or the pages are not focused), the whole state is unchanged. *)
Theorem HidePage_of_absent_page a id :
  HasPage id a = false ->
  let a' := step (HidePage id) a in
  PageStack a' = PageStack a /\
  FocusStack a' = [] /\
  (forall p, previousFocus a = Some p ->
     GetFocus a' = Some (tview.focusTarget p) /\
     broadcasts a' = (broadcasts a ++ [focusChanged p])%list) /\
  (previousFocus a = None ->
   (pagesFocused a = true ->
    defaultFocus (PageStack a) (GetFocus a) = GetFocus a) ->
   a' = a).
Proof.
  intros Hn. cbn [step]. cbv zeta.
  pose proof (HasPage_absent _ _ Hn) as Hni.
  split; [|split; [|split]].
  - rewrite PageStack_RemovePage.
    rewrite (findPage_absent _ _ Hni), (dropPage_absent _ _ Hni). reflexivity.
  - unfold FocusStack. rewrite previousFocus_RemovePage. reflexivity.
  - intros p Hp. unfold RemovePage.
    rewrite GetFocus_GiveBackFocus, broadcasts_GiveBackFocus.
    cbn [previousFocus withToolkit]. rewrite Hp. split; reflexivity.
  - intros Hp Hd. exact (RemovePage_absent_unchanged id a Hn Hp Hd).
Qed.

End Orchestration.

(** *** Style changes *)

Section Style.

Variables Styles KeyBindings : Type.
Variable UpdateConfig : config.Config -> option error.
Variable LoadStyles : string -> bool -> option Styles * option error.
Variable LoadKeybindings : option KeyBindings * option error.

Abbreviation App := (core.App Styles KeyBindings).

(** At start-up a style that does not load ends the process. *)
Lemma NewApp_fatal appConfig e :
  snd (LoadStyles (config.CurrentStyle (config.Styles_ appConfig))
                  (config.BetterSymbols (config.Styles_ appConfig))) = Some e ->
  NewApp LoadStyles LoadKeybindings appConfig = Fatal "Failed to load styles" e.
Proof.
  unfold NewApp.
  destruct (LoadStyles _ _) as [st err]. simpl. intros ->. reflexivity.
Qed.

Lemma NewApp_initial appConfig (a : App) :
  NewApp LoadStyles LoadKeybindings appConfig = Running a -> initial a.
Proof.
  unfold NewApp.
  destruct (LoadStyles _ _) as [st [e|]]; [discriminate|].
  destruct LoadKeybindings as [kb [e|]]; [discriminate|].
  intros [= <-]. split; reflexivity.
Qed.

(** When both steps succeed the styles are applied and announced. *)
Lemma SetStyle_success styleName (a : App) :
  reloadError UpdateConfig LoadStyles styleName a = None ->
  let r := SetStyle UpdateConfig LoadStyles styleName a in
  snd r = None /\
  style (Pages_ (fst r)) = styles (fst r) /\
  broadcasts (fst r) = (broadcasts a ++ [styleChanged])%list.
Proof.
  unfold reloadError, SetStyle. cbn [config_ withConfig].
  destruct (UpdateConfig _); [discriminate|].
  cbn [config.setCurrentStyle config.Styles_ config.CurrentStyle config.BetterSymbols].
  destruct (LoadStyles _ _) as [st err]. cbn [snd]. intros ->.
  split; [|split]; reflexivity.
Qed.

(** C5, as amended.  When the reload fails, SetStyle returns that
    error (it does not end the process); the Page Stack and its
    styling, the focus and the recorded focus are as before, and
    nothing is broadcast; the loaded styles are as before when it is
    persisting the configuration that failed.  The configured style
    name is the requested one. *)
Theorem SetStyle_failure_returns_error (a : App) styleName e :
  reloadError UpdateConfig LoadStyles styleName a = Some e ->
  let r := SetStyle UpdateConfig LoadStyles styleName a in
  snd r = Some e /\
  Pages_ (fst r) = Pages_ a /\
  broadcasts (fst r) = broadcasts a /\
  GetFocus (fst r) = GetFocus a /\
  previousFocus (fst r) = previousFocus a /\
  (UpdateConfig (config.setCurrentStyle styleName (config_ a)) = Some e ->
   styles (fst r) = styles a) /\
  config.CurrentStyle (config.Styles_ (config_ (fst r))) = styleName.
Proof.
  unfold reloadError, SetStyle. cbn [config_ withConfig].
  destruct (UpdateConfig _) as [e1|].
  - intros [= ->]. repeat split; reflexivity.
  - cbn [config.setCurrentStyle config.Styles_ config.CurrentStyle
         config.BetterSymbols].
    destruct (LoadStyles _ _) as [st err]. cbn [snd]. intros ->.
    repeat split; try reflexivity. discriminate.
Qed.

End Style.

(** *** The theorems at concrete states *)

Import examples.

Lemma focus_depth_bounded_and_matched_calls_restore_depths_witness :
  initial fresh /\ matched nested = true /\
  (FocusDepth (run nested fresh) <= PageDepth (run nested fresh) /\
   PageDepth (run nested fresh) = PageDepth fresh /\
   FocusDepth (run nested fresh) = FocusDepth fresh).
Proof.
  assert (Hi : initial fresh) by (split; reflexivity).
  assert (Hm : matched nested = true) by reflexivity.
  split; [exact Hi|]. split; [exact Hm|].
  destruct (focus_depth_bounded_and_matched_calls_restore_depths
              string unit fresh nested Hi) as [Hd Hr].
  split; [exact Hd | exact (Hr Hm)].
Defined.

Lemma SetFocus_then_GiveBackFocus_restores_witness :
  holdsFocus base Content /\
  GetFocus (GiveBackFocus (SetFocus overlayA base)) = Some Content.
Proof.
  assert (H : holdsFocus base Content) by (split; reflexivity).
  split; [exact H|].
  exact (SetFocus_then_GiveBackFocus_restores string unit base overlayA Content H).
Defined.

(** C2 as stated fails: with overlay A open, the focus recorded when A
    was shown is in the Focus Stack; showing B does not push onto it,
    the record of A's predecessor is gone. *)
Lemma ShowPage_replaces_the_recorded_focus :
  GetFocus withA = Some overlayA /\
  FocusStack withA = [Content] /\
  FocusStack (step (ShowPage "B" overlayB true true) withA)
    <> overlayA :: FocusStack withA.
Proof.
  split; [reflexivity|]. split; [reflexivity|].
  vm_compute. discriminate.
Qed.

Lemma ShowPage_visible_records_adds_focuses_witness :
  pagesFocused withA = true /\
  GetFocus (step (ShowPage "B" overlayB true true) withA) = Some overlayB /\
  broadcasts (step (ShowPage "B" overlayB true true) withA) =
    (broadcasts withA ++ [focusChanged overlayB])%list.
Proof.
  assert (H : pagesFocused withA = true) by reflexivity.
  split; [exact H|].
  destruct (ShowPage_visible_records_adds_focuses
              string unit withA "B" overlayB true) as (_ & _ & _ & _ & Hf).
  destruct (Hf H) as (F & _ & Bc). split; [exact F | exact Bc].
Defined.

(** C1 as stated fails: the user is on the content pane of the main
    page; A is shown, B is shown, B is hidden (the focus is back on A),
    A is hidden: the focus is on the databases pane, not where it was. *)
Lemma nested_overlays_final_focus_is_not_the_initial_focus :
  GetFocus base = Some Content /\
  GetFocus (run [ShowPage "A" overlayA true true;
                 ShowPage "B" overlayB true true; HidePage "B"] base)
    = Some overlayA /\
  GetFocus (run nested base) = Some Databases /\
  GetFocus (run nested base) <> GetFocus base.
Proof.
  split; [reflexivity|]. split; [reflexivity|]. split; [reflexivity|].
  vm_compute. discriminate.
Qed.

Lemma nested_overlays_focus_witness :
  pagesFocused base = true /\
  HasPage "A" base = false /\ HasPage "B" base = false /\ "A" <> "B" /\
  GetFocus (run [ShowPage "A" overlayA true true;
                 ShowPage "B" overlayB true true; HidePage "B"] base)
    = GetFocus withA /\
  GetFocus (run nested base) = defaultFocus (PageStack (run nested base)) (GetFocus withA).
Proof.
  assert (H0 : pagesFocused base = true) by reflexivity.
  assert (Ha : HasPage "A" base = false) by reflexivity.
  assert (Hb : HasPage "B" base = false) by reflexivity.
  assert (Hab : "A" <> "B") by discriminate.
  split; [exact H0|]. split; [exact Ha|]. split; [exact Hb|]. split; [exact Hab|].
  destruct (nested_overlays_focus string unit base "A" overlayA true
              "B" overlayB true H0 Ha Hb Hab) as (_ & _ & F3 & _ & _ & F4).
  split; [exact F3 | exact F4].
Defined.

(** C3 as stated fails: with overlay A open, hiding a page that was
    never shown takes the focus from A and empties the Focus Stack. *)
Lemma HidePage_of_a_page_never_shown_moves_the_focus :
  HasPage "Z" withA = false /\
  GetFocus (step (HidePage "Z") withA) <> GetFocus withA /\
  FocusStack (step (HidePage "Z") withA) <> FocusStack withA.
Proof.
  split; [reflexivity|]. split; vm_compute; discriminate.
Qed.

Lemma HidePage_of_absent_page_witness :
  HasPage "Z" withA = false /\
  PageStack (step (HidePage "Z") withA) = PageStack withA /\
  GetFocus (step (HidePage "Z") withA) = Some Content /\
  HasPage "Z" atStart = false /\
  step (HidePage "Z") atStart = atStart.
Proof.
  assert (H : HasPage "Z" withA = false) by reflexivity.
  assert (H' : HasPage "Z" atStart = false) by reflexivity.
  split; [exact H|].
  destruct (HidePage_of_absent_page string unit withA "Z" H) as (P & _ & F & _).
  split; [exact P|].
  split; [exact (proj1 (F Content eq_refl))|].
  split; [exact H'|].
  destruct (HidePage_of_absent_page string unit atStart "Z" H') as (_ & _ & _ & U).
  exact (U eq_refl (fun _ => eq_refl)).
Defined.

(** C5 as stated fails: persisting the configuration fails, SetStyle
    returns the error, and the configured style name is the new one. *)
Lemma SetStyle_failure_changes_the_configured_style :
  let r := SetStyle failingUpdate loadDefaultOnly "dark" base in
  snd r <> None /\
  config.CurrentStyle (config.Styles_ (config_ base)) = "default" /\
  config.CurrentStyle (config.Styles_ (config_ (fst r))) = "dark" /\
  config_ (fst r) <> config_ base.
Proof.
  cbv zeta. split; [vm_compute; discriminate|].
  split; [reflexivity|]. split; [reflexivity|]. vm_compute. discriminate.
Qed.

(** And where it is loading the styles that fails, the loaded styles
    are what the loader returned with its error. *)
Lemma SetStyle_failure_can_drop_the_loaded_styles :
  let r := SetStyle workingUpdate loadDefaultOnly "dark" base in
  snd r <> None /\ styles base = Some "default" /\ styles (fst r) = None.
Proof.
  cbv zeta. split; [vm_compute; discriminate|]. split; reflexivity.
Qed.

Lemma SetStyle_failure_returns_error_witness :
  reloadError failingUpdate loadDefaultOnly "dark" base
    = Some "open config.yaml: permission denied" /\
  (let r := SetStyle failingUpdate loadDefaultOnly "dark" base in
   snd r = Some "open config.yaml: permission denied" /\
   Pages_ (fst r) = Pages_ base /\
   broadcasts (fst r) = broadcasts base /\
   styles (fst r) = styles base).
Proof.
  assert (H : reloadError failingUpdate loadDefaultOnly "dark" base
              = Some "open config.yaml: permission denied") by reflexivity.
  split; [exact H|].
  destruct (SetStyle_failure_returns_error string unit failingUpdate
              loadDefaultOnly base "dark" _ H) as (E & P & B & _ & _ & S & _).
  cbv zeta. split; [exact E|]. split; [exact P|]. split; [exact B|].
  exact (S eq_refl).
Defined.

End core_facts.

(* ================================================================== *)
(** ** The input bar                                                   *)
(* ================================================================== *)

Module component_facts.

Import component.

(** *** Lines *)

Lemma append_empty_r s : (s ++ "")%string = s.
Proof. induction s as [|c r IH]; simpl; [reflexivity | rewrite IH; reflexivity]. Qed.

Lemma append_assoc s t u : ((s ++ t) ++ u)%string = (s ++ (t ++ u))%string.
Proof. induction s as [|c r IH]; simpl; [reflexivity | rewrite IH; reflexivity]. Qed.

Lemma Split_nonempty s : Split s <> [].
Proof.
  destruct s as [|c r]; simpl; [discriminate|].
  destruct (Ascii.eqb c newline); [discriminate|].
  destruct (Split r); discriminate.
Qed.

(** A text without newline in front of [r] joins the first line of [r]. *)
Lemma Split_singleLine t r :
  singleLine t = true ->
  Split (t ++ r) =
  match Split r with
  | h :: tl => (t ++ h)%string :: tl
  | [] => [t]
  end.
Proof.
  induction t as [|c t' IH]; simpl.
  - intros _. destruct (Split r) as [|h tl] eqn:E; [|reflexivity].
    exfalso. exact (Split_nonempty _ E).
  - intros H. apply andb_true_iff in H as [Hc Ht].
    apply negb_true_iff in Hc. rewrite Hc, (IH Ht).
    destruct (Split r) as [|h tl] eqn:E; [|reflexivity].
    exfalso. exact (Split_nonempty _ E).
Qed.

Lemma Split_last_line t :
  singleLine t = true -> Split (t ++ nl) = [t; EmptyString].
Proof.
  intros H. rewrite (Split_singleLine _ _ H). simpl.
  rewrite append_empty_r. reflexivity.
Qed.

(** Appended to terminated contents, a single-line text and its newline
    make the last line but one, behind the lines there were. *)
Lemma Split_appended s t :
  terminated s = true -> singleLine t = true ->
  exists before,
    Split (s ++ (t ++ nl)) = (before ++ [t; EmptyString])%list /\
    (s <> EmptyString -> before <> []).
Proof.
  intros Hs Ht. induction s as [|c r IH].
  - exists []. split; [apply Split_last_line, Ht | intros H; contradiction].
  - destruct r as [|c' r'].
    + simpl in Hs. exists [EmptyString]. split; [|discriminate].
      change (Split (String c (t ++ nl)) = [EmptyString; t; EmptyString]).
      simpl. rewrite Hs, (Split_last_line _ Ht). reflexivity.
    + assert (Hr : terminated (String c' r') = true) by exact Hs.
      destruct (IH Hr) as (before & E & Hne).
      assert (Hb : before <> []) by (apply Hne; discriminate).
      change (String c (String c' r') ++ (t ++ nl))%string
        with (String c (String c' r' ++ (t ++ nl))).
      cbn [Split]. rewrite E.
      destruct (Ascii.eqb c newline).
      * exists (EmptyString :: before). split; [reflexivity | discriminate].
      * destruct before as [|h tl]; [contradiction|].
        exists (String c h :: tl). split; [reflexivity | discriminate].
Qed.

Lemma known_entry text lines :
  text <> EmptyString -> In text lines ->
  existsb (fun entry => String.eqb entry text) (filter nonEmpty lines) = true.
Proof.
  intros Hne Hin. apply existsb_exists. exists text.
  split; [|apply String.eqb_refl].
  apply filter_In. split; [exact Hin|].
  unfold nonEmpty. apply negb_true_iff.
  destruct (String.eqb_spec text EmptyString); [contradiction | reflexivity].
Qed.

(** *** The history file *)

Lemma OpenFile_existing f s :
  openFault f = None -> history_txt f = Some s -> OpenFile f = (f, None).
Proof.
  destruct f as [h o r w]; simpl. intros -> ->. reflexivity.
Qed.

(** A text that is a line of the file is not written again. *)
Lemma SaveToHistory_known f s text :
  openFault f = None -> readFault f = None ->
  history_txt f = Some s -> text <> EmptyString -> In text (Split s) ->
  SaveToHistory text f = (f, None).
Proof.
  intros Ho Hr Hs Hne Hin. unfold SaveToHistory.
  rewrite (OpenFile_existing _ _ Ho Hs).
  unfold LoadHistory, ReadFile. rewrite Hr, Hs.
  rewrite (known_entry _ _ Hne Hin). reflexivity.
Qed.

(** What one call does when the file system raises no fault. *)
Lemma SaveToHistory_once f text :
  openFault f = None -> readFault f = None -> writeFault f = None ->
  SaveToHistory text f =
  if existsb (fun entry => String.eqb entry text)
       (filter nonEmpty (Split (contents f)))
  then (withContents (Some (contents f)) f, None)
  else (withContents (Some (contents f ++ (text ++ nl))%string) f, None).
Proof.
  destruct f as [h o r w]. cbn [openFault readFault writeFault].
  intros -> -> ->. unfold SaveToHistory, OpenFile, LoadHistory, ReadFile,
    WriteString, withContents, contents.
  cbn [openFault readFault writeFault history_txt].
  destruct (existsb _ _); reflexivity.
Qed.

(** Once a single-line text has been saved to a terminated file, it
    is a line of the file, and saving it again changes nothing. *)
Lemma SaveToHistory_repeat f text :
  openFault f = None -> readFault f = None -> writeFault f = None ->
  text <> EmptyString -> singleLine text = true ->
  terminated (contents f) = true ->
  SaveToHistory text (fst (SaveToHistory text f))
  = (fst (SaveToHistory text f), None).
Proof.
  intros Ho Hr Hw Hne Hl Ht.
  rewrite (SaveToHistory_once f text Ho Hr Hw).
  destruct (existsb _ _) eqn:Ex; cbn [fst].
  - (* the text was there: the first call only made sure the file exists *)
    rewrite SaveToHistory_once by assumption.
    change (contents (withContents (Some (contents f)) f)) with (contents f).
    rewrite Ex. reflexivity.
  - (* the text was added *)
    destruct (Split_appended (contents f) text Ht Hl) as (before & Es & _).
    apply SaveToHistory_known with (s := (contents f ++ (text ++ nl))%string);
      try assumption; try reflexivity.
    rewrite Es. apply in_or_app. right. left. reflexivity.
Qed.

(** C10, as amended.  With a history file that can be opened and read,
    and a text that is not empty: if the text is a line of the file,
    SaveToHistory returns nil and leaves the file as it is; and if the
    text is a single line, the file can be written and its contents
    are empty or end with a newline, then after one SaveToHistory a
    second one with the same text returns nil and leaves the file as
    the first call left it. *)
Theorem SaveToHistory_known_text_and_repeated_call f text :
  openFault f = None -> readFault f = None -> text <> EmptyString ->
  (forall s, history_txt f = Some s -> In text (Split s) ->
     SaveToHistory text f = (f, None)) /\
  (writeFault f = None -> singleLine text = true ->
   terminated (contents f) = true ->
   SaveToHistory text (fst (SaveToHistory text f))
   = (fst (SaveToHistory text f), None)).
Proof.
  intros Ho Hr Hne. split.
  - intros s Hs Hin. exact (SaveToHistory_known f s text Ho Hr Hs Hne Hin).
  - intros Hw Hl Ht. exact (SaveToHistory_repeat f text Ho Hr Hw Hne Hl Ht).
Qed.

(** *** The listener *)

Lemma Disable_disabled w : IsEnabled (Disable w) = false.
Proof. reflexivity. Qed.

Lemma listen_ignores ev w :
  ev <> keyEvent KeyEsc -> ev <> keyEvent KeyEnter -> listen ev w = w.
Proof.
  destruct ev as [[| |n]|]; intros H1 H2; try reflexivity; contradiction.
Qed.

(** C7.  In the listener, Esc and Enter both disable the input bar (the
    flag is off and the bar is no longer the active component); Enter
    calls the accept callback with the text of the bar, and no reject;
    Esc calls the reject callback, which takes no data, and no accept,
    and leaves the history file alone. *)
Theorem EventListener_cancel_and_accept w :
  let cancelled := EventListener [keyEvent KeyEsc] w in
  let accepted := EventListener [keyEvent KeyEnter] w in
  IsEnabled cancelled = false /\ IsEnabled accepted = false /\
  components cancelled = tl (components w) /\
  components accepted = tl (components w) /\
  called cancelled = (called w ++ [reject])%list /\
  called accepted = (called w ++ [accept (GetText w)])%list /\
  files cancelled = files w.
Proof.
  cbv zeta. cbn [EventListener listen]. unfold onEsc, onEnter.
  destruct (SaveToHistory (GetText (Disable w)) (files (Disable w))) as [f [e|]];
    repeat split; reflexivity.
Qed.

(** *** The theorems at concrete inputs *)

Import examples.

(** The user has typed a query: Enter accepts it and keeps it in the
    history, Esc rejects and keeps nothing; either way the bar is off
    and the content pane is the active component again. *)
Lemma EventListener_on_a_typed_query :
  let accepted := EventListener [keyEvent KeyEnter] (typing "{}") in
  let cancelled := EventListener [keyEvent KeyEsc] (typing "{}") in
  called accepted = [accept "{}"] /\
  history_txt (files accepted) = Some ("{}" ++ nl) /\
  called cancelled = [reject] /\
  history_txt (files cancelled) = None /\
  IsEnabled accepted = false /\ IsEnabled cancelled = false /\
  components accepted = ["Content"] /\ components cancelled = ["Content"].
Proof. cbv zeta. repeat split; reflexivity. Qed.

(** C10 as stated fails for the empty text: it is a line of the file
    and is written again, and two calls leave another file than one. *)
Lemma SaveToHistory_empty_text_is_written_again :
  Split (contents (history ("find" ++ nl ++ nl ++ "sort" ++ nl)))
    = ["find"; EmptyString; "sort"; EmptyString] /\
  fst (SaveToHistory EmptyString (history ("find" ++ nl ++ nl ++ "sort" ++ nl)))
    <> history ("find" ++ nl ++ nl ++ "sort" ++ nl) /\
  fst (SaveToHistory EmptyString (fst (SaveToHistory EmptyString noHistory)))
    <> fst (SaveToHistory EmptyString noHistory).
Proof.
  split; [reflexivity|].
  split; vm_compute; discriminate.
Qed.

(** Nor is a text of two lines recognised once saved. *)
Lemma SaveToHistory_two_lines_are_written_again :
  fst (SaveToHistory ("a" ++ nl ++ "b")
         (fst (SaveToHistory ("a" ++ nl ++ "b") noHistory)))
    <> fst (SaveToHistory ("a" ++ nl ++ "b") noHistory).
Proof. vm_compute. discriminate. Qed.

Lemma SaveToHistory_known_text_and_repeated_call_witness :
  openFault noHistory = None /\ readFault noHistory = None /\
  "find" <> EmptyString /\
  SaveToHistory "find" (fst (SaveToHistory "find" noHistory))
    = (fst (SaveToHistory "find" noHistory), None) /\
  In "find" (Split ("sort" ++ nl ++ "find" ++ nl)) /\
  SaveToHistory "find" (history ("sort" ++ nl ++ "find" ++ nl))
    = (history ("sort" ++ nl ++ "find" ++ nl), None).
Proof.
  assert (Hne : "find" <> EmptyString) by discriminate.
  assert (Hin : In "find" (Split ("sort" ++ nl ++ "find" ++ nl)))
    by (right; left; reflexivity).
  split; [reflexivity|]. split; [reflexivity|]. split; [exact Hne|].
  split.
  - exact (proj2 (SaveToHistory_known_text_and_repeated_call
                    noHistory "find" eq_refl eq_refl Hne)
             eq_refl eq_refl eq_refl).
  - split; [exact Hin|].
    exact (proj1 (SaveToHistory_known_text_and_repeated_call
                    (history ("sort" ++ nl ++ "find" ++ nl)) "find"
                    eq_refl eq_refl Hne)
             _ eq_refl Hin).
Defined.

End component_facts.

(* ================================================================== *)
(** ** The data-access object                                          *)
(* ================================================================== *)

Module mongo_facts.

Import mongo examples.

(** The id handed to [UpdateDocument] has no part in what it does. *)
Lemma UpdateDocument_ignores_id db coll id id' document d :
  UpdateDocument db coll id document d = UpdateDocument db coll id' document d.
Proof. reflexivity. Qed.

(** The documents of the collection are all still there, unchanged, in
    front of whatever was added. *)
Lemma UpdateDocument_keeps_documents db coll id document d :
  exists added,
    documents (client (fst (UpdateDocument db coll id document d))) db coll
    = (documents (client d) db coll ++ added)%list.
Proof.
  unfold UpdateDocument, InsertOne.
  destruct (idOf _) as [i|].
  - destruct (hasId i _).
    + exists []. simpl. rewrite app_nil_r. reflexivity.
    + eexists. simpl. rewrite !String.eqb_refl. reflexivity.
  - eexists. simpl. rewrite !String.eqb_refl. reflexivity.
Qed.

(** C8, the code at the failing input.  The collection holds the one
    document with id 1; UpdateDocument for id 1 with a new name
    succeeds, the document with id 1 is as it was, and the collection
    holds a second document. *)
Theorem UpdateDocument_inserts_instead_of_updating :
  let r := UpdateDocument "app" "users" 1 [("name", VString "Grace")] store in
  let users := documents (client (fst r)) "app" "users" in
  snd r = None /\
  findById 1 (documents (client store) "app" "users") = Some ada /\
  findById 1 users = Some ada /\
  users = [ada; [("_id", VObjectID 2); ("name", VString "Grace")]].
Proof. cbv zeta. repeat split; reflexivity. Qed.

(** With the id in the document itself the driver refuses the insert:
    nothing is updated either. *)
Lemma UpdateDocument_with_id_in_document_is_refused :
  let r := UpdateDocument "app" "users" 1
             [("_id", VObjectID 1); ("name", VString "Grace")] store in
  snd r = Some "E11000 duplicate key error" /\
  documents (client (fst r)) "app" "users" = [ada].
Proof. cbv zeta. split; reflexivity. Qed.

End mongo_facts.

(* ================================================================== *)
(** ** More on pages and focus                                         *)
(* ================================================================== *)

Module core_more.

Import core tview_facts core_facts.

Section Pages.

Variables Styles KeyBindings : Type.

Abbreviation App := (core.App Styles KeyBindings).

Implicit Types (a : App) (id : tview.Identifier) (view : tview.Primitive).

(** *** One overlay, shown and hidden *)




Lemma ensureVisible_with_top ps t :
  tview.topItem ps = Some t -> tview.ensureVisible ps = ps.
Proof.
  induction ps as [|pg r IH]; [discriminate|].
  destruct r as [|pg' r'].
  - simpl. destruct (tview.Visible pg) eqn:V; [|discriminate].
    intros _. rewrite (show_visible _ V). reflexivity.
  - change (tview.ensureVisible (pg :: pg' :: r'))
      with (if tview.Visible pg then pg :: pg' :: r'
            else pg :: tview.ensureVisible (pg' :: r')).
    destruct (tview.Visible pg) eqn:V; [reflexivity|].
    change (tview.topItem (pg :: pg' :: r'))
      with (match tview.topItem (pg' :: r') with
            | Some t => Some t
            | None => if tview.Visible pg then Some (tview.Item pg) else None
            end).
    rewrite V. destruct (tview.topItem (pg' :: r')) as [t'|] eqn:T; [|discriminate].
    intros H. rewrite (IH H). reflexivity.
Qed.

(** Showing a page under a new id and hiding it again leaves the Page
    Stack as it was, but for the toolkit making the last page visible
    when the overlay was visible and no page under it is. *)
Theorem ShowPage_then_HidePage_restores_the_pages a id view resizable visible :
  HasPage id a = false ->
  let a' := step (HidePage id) (step (ShowPage id view resizable visible) a) in
  PageStack a' =
    (if visible then tview.ensureVisible (PageStack a) else PageStack a) /\
  (forall t, tview.topItem (PageStack a) = Some t -> PageStack a' = PageStack a).
Proof.
  intros Hn. cbn [step]. cbv zeta. apply HasPage_absent in Hn.
  assert (E : PageStack (RemovePage id (AddPage id view resizable visible a)) =
              (if visible then tview.ensureVisible (PageStack a) else PageStack a)).
  { rewrite PageStack_RemovePage, PageStack_AddPage, (dropPage_absent _ _ Hn).
    set (pg := {| tview.Name := id; tview.Item := view;
                  tview.Resize := resizable; tview.Visible := visible |}).
    rewrite (findPage_top id (PageStack a) pg Hn eq_refl).
    rewrite (dropPage_top id (PageStack a) pg Hn eq_refl).
    reflexivity. }
  split; [exact E|].
  intros t Ht. rewrite E. destruct visible; [|reflexivity].
  exact (ensureVisible_with_top _ _ Ht).
Qed.

(** *** Page ids *)

Lemma NoDup_names_AddPage id view resize visible a :
  NoDup (tview.names (PageStack a)) ->
  NoDup (tview.names (PageStack (AddPage id view resize visible a))).
Proof.
  intros H. rewrite PageStack_AddPage, names_snoc. simpl.
  apply NoDup_app; [apply dropPage_NoDup, H | repeat constructor; intros [] |].
  intros n Hn [<-|[]]. exact (dropPage_gone _ _ H Hn).
Qed.

Lemma NoDup_names_RemovePage id a :
  NoDup (tview.names (PageStack a)) ->
  NoDup (tview.names (PageStack (RemovePage id a))).
Proof. intros H. rewrite names_RemovePage. apply dropPage_NoDup, H. Qed.

(** No sequence of calls puts two pages under one id. *)
Theorem page_ids_stay_unique cs a :
  NoDup (tview.names (PageStack a)) ->
  NoDup (tview.names (PageStack (run cs a))).
Proof.
  revert a. induction cs as [|c r IH]; intros a H; simpl; [exact H|].
  apply IH. destruct c as [id view rs v | id]; cbn [step].
  - apply NoDup_names_AddPage, H.
  - apply NoDup_names_RemovePage, H.
Qed.

Lemma HasPage_In id a :
  HasPage id a = true <-> In id (tview.names (PageStack a)).
Proof.
  destruct (HasPage id a) eqn:E.
  - split; [intros _|reflexivity].
    destruct (in_dec string_dec id (tview.names (PageStack a))) as [H|H]; [exact H|].
    apply HasPage_false_not_in in H. unfold HasPage in E.
    rewrite E in H. discriminate.
  - split; [discriminate|]. intros H. exfalso.
    exact (HasPage_absent _ _ _ _ E H).
Qed.

Lemma dropPage_other name n ps :
  n <> name -> (In n (tview.names (tview.dropPage name ps)) <-> In n (tview.names ps)).
Proof.
  intros Hne. split; [apply dropPage_names_incl|].
  induction ps as [|pg r IH]; simpl; [intros []|].
  destruct (String.eqb_spec (tview.Name pg) name) as [e|ne]; simpl.
  - intros [H|H]; [congruence | exact H].
  - intros [H|H]; [left; exact H | right; exact (IH H)].
Qed.

Lemma bool_eq_iff (b c : bool) : (b = true <-> c = true) -> b = c.
Proof. destruct b, c; intros [H1 H2]; try reflexivity;
  [symmetry; apply H1; reflexivity | apply H2; reflexivity]. Qed.

(** HasPage after ShowPage and HidePage: the id shown is there, the id
    hidden is not (ids being unique), every other id is as before. *)
Theorem HasPage_after_ShowPage_and_HidePage a id view resizable visible other :
  NoDup (tview.names (PageStack a)) ->
  HasPage id (step (ShowPage id view resizable visible) a) = true /\
  HasPage id (step (HidePage id) a) = false /\
  (other <> id ->
   HasPage other (step (ShowPage id view resizable visible) a) = HasPage other a /\
   HasPage other (step (HidePage id) a) = HasPage other a).
Proof.
  intros Hnd. cbn [step]. split; [|split].
  - apply HasPage_In. rewrite PageStack_AddPage, names_snoc.
    apply in_or_app. right. left. reflexivity.
  - destruct (HasPage id (RemovePage id a)) eqn:E; [|reflexivity].
    apply HasPage_In in E. rewrite names_RemovePage in E.
    exfalso. exact (dropPage_gone _ _ Hnd E).
  - intros Hne. split; apply bool_eq_iff; rewrite !HasPage_In.
    + rewrite PageStack_AddPage, names_snoc. split.
      * intros H. apply in_app_or in H as [H|[H|[]]].
        -- exact (dropPage_names_incl _ _ _ H).
        -- simpl in H. congruence.
      * intros H. apply in_or_app. left. apply dropPage_other; assumption.
    + rewrite names_RemovePage. apply dropPage_other. exact Hne.
Qed.

Lemma length_dropPage name ps :
  List.length (tview.dropPage name ps) =
  if tview.HasPage name {| tview.pages := ps; tview.setFocus := false |}
  then pred (List.length ps) else List.length ps.
Proof.
  unfold tview.HasPage. cbn [tview.pages].
  induction ps as [|pg r IH]; [reflexivity|]. simpl.
  destruct (String.eqb (tview.Name pg) name); simpl; [reflexivity|].
  rewrite IH. destruct (existsb _ r) eqn:E; [|reflexivity].
  destruct r; [discriminate | reflexivity].
Qed.

(** ShowPage of an id that is already shown replaces its page: the new
    page is on top and the Page Stack is as deep as before; under a new
    id it is one deeper. *)
Theorem ShowPage_replaces_the_page_of_its_id a id view resizable visible :
  let a' := step (ShowPage id view resizable visible) a in
  last (PageStack a') {| tview.Name := id; tview.Item := view;
                         tview.Resize := resizable; tview.Visible := visible |}
  = {| tview.Name := id; tview.Item := view;
       tview.Resize := resizable; tview.Visible := visible |} /\
  PageDepth a' = (if HasPage id a then PageDepth a else S (PageDepth a)).
Proof.
  cbn [step]. cbv zeta. unfold PageDepth. rewrite PageStack_AddPage. split.
  - apply last_last.
  - rewrite length_app, length_dropPage. cbn [List.length].
    unfold HasPage, tview.HasPage, PageStack. cbn [tview.pages].
    destruct (existsb _ _) eqn:E; [|lia].
    destruct (tview.pages (tview_Pages (Pages_ a))); [discriminate | simpl; lia].
Qed.

(** *** Events *)

Lemma broadcasts_RemovePage id a :
  broadcasts (RemovePage id a) =
  match previousFocus a with
  | Some p => (broadcasts a ++ [focusChanged p])%list
  | None => broadcasts a
  end.
Proof.
  unfold RemovePage. rewrite broadcasts_GiveBackFocus. reflexivity.
Qed.

Lemma step_appends_at_most_one_event c a :
  exists evs,
    broadcasts (step c a) = (broadcasts a ++ evs)%list /\
    List.length evs <= 1 /\
    Forall (fun e => manager.Type_ (manager.Message_ e) = manager.FocusChanged) evs.
Proof.
  destruct c as [id view r v | id]; cbn [step].
  - rewrite broadcasts_AddPage.
    destruct (v && _).
    + exists [focusChanged view].
      split; [reflexivity|]. split; [simpl; lia | repeat constructor].
    + exists []. rewrite app_nil_r.
      split; [reflexivity|]. split; [simpl; lia | constructor].
  - rewrite broadcasts_RemovePage. destruct (previousFocus a) as [p|].
    + exists [focusChanged p].
      split; [reflexivity|]. split; [simpl; lia | repeat constructor].
    + exists []. rewrite app_nil_r.
      split; [reflexivity|]. split; [simpl; lia | constructor].
Qed.

(** Page calls never drop or reorder what was broadcast: they append,
    at most one event a call, and every event is a FocusChanged. *)
Theorem page_calls_append_FocusChanged_events cs a :
  exists evs,
    broadcasts (run cs a) = (broadcasts a ++ evs)%list /\
    List.length evs <= List.length cs /\
    Forall (fun e => manager.Type_ (manager.Message_ e) = manager.FocusChanged) evs.
Proof.
  revert a. induction cs as [|c r IH]; intros a; simpl.
  - exists []. rewrite app_nil_r.
    split; [reflexivity|]. split; [simpl; lia | constructor].
  - destruct (step_appends_at_most_one_event c a) as (e1 & E1 & L1 & F1).
    destruct (IH (step c a)) as (e2 & E2 & L2 & F2).
    exists (e1 ++ e2)%list. split; [|split].
    + rewrite E2, E1, app_assoc. reflexivity.
    + rewrite length_app. lia.
    + apply Forall_app. split; assumption.
Qed.

(** A page shown with visible = false is never announced, yet the view
    that has the focus is recorded as for a visible page. *)
Theorem ShowPage_invisible_records_but_does_not_announce a id view resizable :
  let a' := step (ShowPage id view resizable false) a in
  broadcasts a' = broadcasts a /\ previousFocus a' = GetFocus a.
Proof.
  cbn [step]. cbv zeta. split.
  - rewrite broadcasts_AddPage. reflexivity.
  - apply previousFocus_AddPage.
Qed.

End Pages.

Section Start.

Variables Styles KeyBindings : Type.
Variable UpdateConfig : config.Config -> option error.
Variable LoadStyles : string -> bool -> option Styles * option error.
Variable LoadKeybindings : option KeyBindings * option error.

(** NewApp ends the process exactly when a loader returns an error;
    otherwise the application starts with no page, no focus, nothing
    recorded or broadcast, the given configuration, and the loaded
    styles applied to its pages. *)
Theorem NewApp_is_fatal_exactly_when_a_loader_fails appConfig :
  let loaded := LoadStyles (config.CurrentStyle (config.Styles_ appConfig))
                           (config.BetterSymbols (config.Styles_ appConfig)) in
  ((exists msg e, NewApp LoadStyles LoadKeybindings appConfig = Fatal msg e) <->
   (snd loaded <> None \/ snd LoadKeybindings <> None)) /\
  (forall a, NewApp LoadStyles LoadKeybindings appConfig = Running a ->
     PageStack a = [] /\ GetFocus a = None /\ previousFocus a = None /\
     broadcasts a = [] /\ config_ a = appConfig /\
     styles a = fst loaded /\ style (Pages_ a) = fst loaded /\
     keys a = fst LoadKeybindings).
Proof.
  cbv zeta. unfold NewApp.
  destruct (LoadStyles _ _) as [st [e|]]; cbn [fst snd].
  - split.
    + split; [intros _; left; discriminate | intros _; eauto].
    + intros a H. discriminate.
  - destruct LoadKeybindings as [kb [e|]]; cbn [fst snd].
    + split.
      * split; [intros _; right; discriminate | intros _; eauto].
      * intros a H. discriminate.
    + split.
      * split; [intros (m & e & H); discriminate | intros [H|H]; contradiction].
      * intros a [= <-]. repeat split.
Qed.

(** SetStyle returns the error of the reload, if any.  StyleChanged is
    broadcast, and the loaded styles are put on the pages, exactly when
    it returns nil; pages, focus and recorded focus are never touched,
    and the configured style name is the requested one either way. *)
Theorem SetStyle_announces_exactly_on_success (a : core.App Styles KeyBindings) styleName :
  let r := SetStyle UpdateConfig LoadStyles styleName a in
  snd r = reloadError UpdateConfig LoadStyles styleName a /\
  broadcasts (fst r) = match snd r with
                       | None => (broadcasts a ++ [styleChanged])%list
                       | Some _ => broadcasts a
                       end /\
  style (Pages_ (fst r)) = match snd r with
                           | None => styles (fst r)
                           | Some _ => style (Pages_ a)
                           end /\
  PageStack (fst r) = PageStack a /\
  GetFocus (fst r) = GetFocus a /\
  previousFocus (fst r) = previousFocus a /\
  config.CurrentStyle (config.Styles_ (config_ (fst r))) = styleName.
Proof.
  unfold reloadError, SetStyle. cbn [config_ withConfig].
  destruct (UpdateConfig _); [repeat split|].
  cbn [config.setCurrentStyle config.Styles_ config.CurrentStyle config.BetterSymbols].
  destruct (LoadStyles _ _) as [st [e|]]; repeat split.
Qed.

End Start.

Import examples.


Lemma ShowPage_then_HidePage_restores_the_pages_witness :
  HasPage "A" base = false /\
  PageStack (step (HidePage "A") (step (ShowPage "A" overlayA true true) base))
  = PageStack base.
Proof.
  assert (H : HasPage "A" base = false) by reflexivity.
  split; [exact H|].
  exact (proj2 (ShowPage_then_HidePage_restores_the_pages
                  string unit base "A" overlayA true true H) Main eq_refl).
Defined.

Lemma page_ids_stay_unique_witness :
  NoDup (tview.names (PageStack base)) /\
  NoDup (tview.names (PageStack
           (run [ShowPage "A" overlayA true true; ShowPage "Main" overlayB true true;
                 ShowPage "A" overlayB false true] base))).
Proof.
  assert (H : NoDup (tview.names (PageStack base))).
  { repeat constructor. intros []. }
  split; [exact H|].
  exact (page_ids_stay_unique string unit _ base H).
Defined.

Lemma HasPage_after_ShowPage_and_HidePage_witness :
  NoDup (tview.names (PageStack withA)) /\ "Main" <> "A" /\
  HasPage "A" (step (HidePage "A") withA) = false /\
  HasPage "Main" (step (HidePage "A") withA) = HasPage "Main" withA.
Proof.
  assert (H : NoDup (tview.names (PageStack withA))).
  { repeat constructor; [intros [H|[]]; discriminate H | intros []]. }
  assert (Hne : "Main" <> "A") by discriminate.
  split; [exact H|]. split; [exact Hne|].
  destruct (HasPage_after_ShowPage_and_HidePage
              string unit withA "A" overlayA true true "Main" H) as (_ & R & O).
  split; [exact R | exact (proj2 (O Hne))].
Defined.

End core_more.

(* ================================================================== *)
(** ** More on the input bar                                           *)
(* ================================================================== *)

Module component_more.

Import component component_facts.

(** *** What the history holds *)

Lemma Split_singleLine_pieces s : Forall (fun e => singleLine e = true) (Split s).
Proof.
  induction s as [|c r IH]; simpl.
  - repeat constructor.
  - destruct (Ascii.eqb c newline) eqn:E.
    + constructor; [reflexivity | exact IH].
    + destruct (Split r) as [|h t]; [repeat constructor; simpl; rewrite E; reflexivity|].
      inversion IH as [|x l Hh Ht]; subst.
      constructor; [simpl; rewrite E, Hh; reflexivity | exact Ht].
Qed.

(** No entry LoadHistory returns is empty or has a newline in it. *)
Theorem LoadHistory_entries_are_nonempty_single_lines f :
  Forall (fun entry => entry <> EmptyString /\ singleLine entry = true)
         (fst (LoadHistory f)).
Proof.
  unfold LoadHistory. destruct (ReadFile f) as [file [e|]]; cbn [fst].
  - constructor.
  - apply Forall_forall. intros entry Hin. apply filter_In in Hin as [Hin Hne].
    split.
    + unfold nonEmpty in Hne. apply negb_true_iff in Hne.
      intros ->. discriminate.
    + pose proof (Split_singleLine_pieces file) as H.
      rewrite Forall_forall in H. exact (H _ Hin).
Qed.

Lemma Split_only_empty s : Split s = [EmptyString] -> s = EmptyString.
Proof.
  destruct s as [|c r]; [reflexivity|]. simpl.
  destruct (Ascii.eqb c newline).
  - intros [= H]. exfalso. exact (Split_nonempty _ H).
  - destruct (Split r); discriminate.
Qed.

(** Terminated contents split into their lines and one empty piece, and
    whatever is appended is split by itself. *)
Lemma Split_terminated s :
  terminated s = true ->
  exists before,
    Split s = (before ++ [EmptyString])%list /\
    forall r, Split (s ++ r) = (before ++ Split r)%list.
Proof.
  induction s as [|c r0 IH]; intros Ht.
  - exists []. split; [reflexivity | intros r; reflexivity].
  - destruct r0 as [|c' r'].
    + simpl in Ht. exists [EmptyString]. split.
      * simpl. rewrite Ht. reflexivity.
      * intros r. simpl. rewrite Ht. reflexivity.
    + assert (Hr : terminated (String c' r') = true) by exact Ht.
      destruct (IH Hr) as (b & Eb & Ea). clear IH Ht Hr.
      remember (String c' r') as s0 eqn:Es0.
      destruct (Ascii.eqb c newline) eqn:E.
      * exists (EmptyString :: b). split.
        -- simpl. rewrite E, Eb. reflexivity.
        -- intros r. simpl. rewrite E, Ea. reflexivity.
      * destruct b as [|h t].
        { simpl in Eb. apply Split_only_empty in Eb. subst s0. discriminate. }
        exists (String c h :: t). split.
        -- simpl. rewrite E, Eb. reflexivity.
        -- intros r. simpl. rewrite E, Ea. reflexivity.
Qed.

Lemma entries_appended s t :
  terminated s = true -> singleLine t = true -> t <> EmptyString ->
  filter nonEmpty (Split (s ++ (t ++ nl)))
  = (filter nonEmpty (Split s) ++ [t])%list.
Proof.
  intros Hs Ht Hne. destruct (Split_terminated s Hs) as (b & Eb & Ea).
  rewrite Ea, Eb, (Split_last_line _ Ht), !filter_app. simpl.
  assert (N : nonEmpty t = true).
  { unfold nonEmpty. apply negb_true_iff.
    destruct (String.eqb_spec t EmptyString); [contradiction | reflexivity]. }
  rewrite N, app_nil_r. reflexivity.
Qed.

Lemma LoadHistory_contents f :
  readFault f = None ->
  fst (LoadHistory f) = filter nonEmpty (Split (contents f)).
Proof.
  unfold LoadHistory, ReadFile, contents. intros ->.
  destruct (history_txt f); reflexivity.
Qed.

Lemma LoadHistory_after_SaveToHistory f text :
  openFault f = None -> readFault f = None -> writeFault f = None ->
  text <> EmptyString -> singleLine text = true ->
  terminated (contents f) = true ->
  LoadHistory (fst (SaveToHistory text f)) =
  (if existsb (fun entry => String.eqb entry text) (fst (LoadHistory f))
   then fst (LoadHistory f)
   else (fst (LoadHistory f) ++ [text])%list, None).
Proof.
  intros Ho Hr Hw Hne Hl Ht.
  rewrite (LoadHistory_contents f Hr), (SaveToHistory_once f text Ho Hr Hw).
  destruct (existsb _ _); cbn [fst]; unfold LoadHistory, ReadFile, withContents;
    cbn [readFault history_txt]; rewrite Hr.
  - reflexivity.
  - rewrite (entries_appended _ _ Ht Hl Hne). reflexivity.
Qed.

(** A new text goes to the end of the history and the entries before it
    keep their order; a text already there leaves the history as it is;
    either way SaveToHistory returns nil.  (For a text of one non-empty
    line, a file empty or ending with a newline, and a file system
    without faults.) *)
Theorem SaveToHistory_appends_new_text_at_the_end f text :
  openFault f = None -> readFault f = None -> writeFault f = None ->
  text <> EmptyString -> singleLine text = true ->
  terminated (contents f) = true ->
  snd (SaveToHistory text f) = None /\
  LoadHistory (fst (SaveToHistory text f)) =
  (if existsb (fun entry => String.eqb entry text) (fst (LoadHistory f))
   then fst (LoadHistory f)
   else (fst (LoadHistory f) ++ [text])%list, None).
Proof.
  intros Ho Hr Hw Hne Hl Ht. split.
  - rewrite (SaveToHistory_once f text Ho Hr Hw).
    destruct (existsb _ _); reflexivity.
  - exact (LoadHistory_after_SaveToHistory f text Ho Hr Hw Hne Hl Ht).
Qed.

(** A history without repeated entries has none after SaveToHistory
    either, and the file still ends with a newline. *)
Theorem SaveToHistory_keeps_the_history_free_of_duplicates f text :
  openFault f = None -> readFault f = None -> writeFault f = None ->
  text <> EmptyString -> singleLine text = true ->
  terminated (contents f) = true ->
  NoDup (fst (LoadHistory f)) ->
  NoDup (fst (LoadHistory (fst (SaveToHistory text f)))) /\
  terminated (contents (fst (SaveToHistory text f))) = true.
Proof.
  intros Ho Hr Hw Hne Hl Ht Hnd. split.
  - rewrite (LoadHistory_after_SaveToHistory f text Ho Hr Hw Hne Hl Ht).
    destruct (existsb _ _) eqn:E; cbn [fst]; [exact Hnd|].
    apply NoDup_app; [exact Hnd | repeat constructor; intros [] |].
    intros x Hx [<-|[]].
    assert (T : existsb (fun entry => String.eqb entry text) (fst (LoadHistory f)) = true).
    { apply existsb_exists. exists text. split; [exact Hx | apply String.eqb_refl]. }
    rewrite T in E. discriminate.
  - rewrite (SaveToHistory_once f text Ho Hr Hw).
    destruct (existsb _ _); cbn [fst]; unfold contents, withContents;
      cbn [history_txt]; fold (contents f); [exact Ht|].
    clear -Ht Hl. induction (contents f) as [|c r IH].
    + simpl. induction text as [|c t IHt]; [reflexivity|].
      simpl in Hl |- *. apply andb_true_iff in Hl as [_ Hl].
      specialize (IHt Hl). destruct t; exact IHt.
    + destruct r as [|c' r'].
      * simpl in Ht. clear IH.
        change (terminated (String c (text ++ nl)) = true).
        assert (G : terminated (text ++ nl) = true).
        { induction text as [|c0 t IHt]; [reflexivity|].
          simpl in Hl |- *. apply andb_true_iff in Hl as [_ Hl].
          specialize (IHt Hl). destruct t; exact IHt. }
        simpl. destruct (text ++ nl)%string eqn:E; [|exact G].
        destruct text; discriminate.
      * exact (IH Ht).
Qed.


(** *** Enabling and disabling *)

(** Toggle flips the flag.  Toggled twice, a disabled bar is left as it
    was, component stack included; an enabled bar is enabled again, with
    the input bar in the place of the component that was active. *)
Theorem Toggle_twice w :
  IsEnabled (Toggle w) = negb (IsEnabled w) /\
  (IsEnabled w = false -> Toggle (Toggle w) = w) /\
  (IsEnabled w = true ->
   IsEnabled (Toggle (Toggle w)) = true /\
   components (Toggle (Toggle w)) = InputBarComponent :: tl (components w)).
Proof.
  destruct w as [[l e ao dk tx] cs f cl lg]. unfold Toggle, IsEnabled.
  cbn [bar enabled]. destruct e; cbn.
  - split; [reflexivity|]. split; [discriminate|]. intros _. split; reflexivity.
  - split; [reflexivity|]. split; [reflexivity | discriminate].
Qed.

(** *** The listener over a sequence of events *)

Lemma GetText_listen ev w : GetText (listen ev w) = GetText w.
Proof.
  destruct ev as [[| |n]|]; try reflexivity.
  cbn [listen]. unfold onEnter.
  destruct (SaveToHistory _ _) as [f [e|]]; reflexivity.
Qed.

Lemma called_listen ev w :
  called (listen ev w) = (called w ++ callbackFor (GetText w) ev)%list.
Proof.
  destruct ev as [[| |n]|]; cbn [listen callbackFor];
    try (rewrite app_nil_r; reflexivity).
  - unfold onEnter. destruct (SaveToHistory _ _) as [f [e|]]; reflexivity.
  - reflexivity.
Qed.

Lemma called_EventListener evs w :
  called (EventListener evs w)
  = (called w ++ flat_map (callbackFor (GetText w)) evs)%list.
Proof.
  revert w. induction evs as [|ev r IH]; intros w; simpl.
  - rewrite app_nil_r. reflexivity.
  - rewrite IH, called_listen, GetText_listen, app_assoc. reflexivity.
Qed.

Lemma EventListener_ignores evs w :
  flat_map (callbackFor (GetText w)) evs = [] -> EventListener evs w = w.
Proof.
  revert w. induction evs as [|ev r IH]; intros w; simpl; [reflexivity|].
  intros H. apply app_eq_nil in H as [H1 H2].
  assert (E : listen ev w = w).
  { destruct ev as [[| |n]|]; try reflexivity; discriminate. }
  rewrite E. exact (IH w H2).
Qed.

(** The listener does not stop: over any sequence of events it calls
    accept with the bar's text for every Enter and reject for every Esc,
    in the order they arrive, and nothing for anything else; a sequence
    without Enter and Esc leaves everything as it is. *)
Theorem EventListener_calls_back_for_every_Enter_and_Esc evs w :
  called (EventListener evs w)
  = (called w ++ flat_map (callbackFor (GetText w)) evs)%list /\
  (flat_map (callbackFor (GetText w)) evs = [] -> EventListener evs w = w).
Proof.
  split; [apply called_EventListener | apply EventListener_ignores].
Qed.

Lemma EventListener_app evs evs' w :
  EventListener (evs ++ evs') w = EventListener evs' (EventListener evs w).
Proof.
  revert w. induction evs as [|ev r IH]; intros w; simpl; [reflexivity | apply IH].
Qed.

Lemma inputCapture_cases visible k :
  (inputCapture visible k = (None, [keyEvent k]) /\
   visible = false /\ (k = KeyEnter \/ k = KeyEsc)) \/
  (inputCapture visible k = (Some k, []) /\
   (visible = true \/ exists n, k = KeyOther n)).
Proof.
  destruct visible.
  - right. split; [reflexivity | left; reflexivity].
  - destruct k as [| |n].
    + left. repeat split. left. reflexivity.
    + left. repeat split. right. reflexivity.
    + right. split; [reflexivity | right; exists n; reflexivity].
Qed.

(** The input capture either passes a key on or sends it to the
    listener, never both; it sends Enter and Esc typed while the
    autocomplete list is hidden, and these are the keystrokes the
    listener calls back for. *)
Theorem inputCapture_sends_what_the_listener_acts_on
    (strokes : list (bool * Key)) (w : World) :
  Forall (fun s : bool * Key =>
            (inputCapture (fst s) (snd s) = (None, [keyEvent (snd s)]) /\
             fst s = false /\ (snd s = KeyEnter \/ snd s = KeyEsc)) \/
            (inputCapture (fst s) (snd s) = (Some (snd s), []) /\
             (fst s = true \/ exists n, snd s = KeyOther n))) strokes /\
  called (EventListener (sentBy strokes) w)
  = (called w ++
     flat_map (fun s : bool * Key =>
                 if fst s then []
                 else callbackFor (GetText w) (keyEvent (snd s)))
              strokes)%list.
Proof.
  split.
  - apply Forall_forall. intros s _. apply inputCapture_cases.
  - rewrite called_EventListener. f_equal. unfold sentBy.
    induction strokes as [|[v k] r IH]; [reflexivity|].
    cbn [flat_map fst snd]. rewrite flat_map_app, IH. f_equal.
    destruct v; [reflexivity|]. destruct k; simpl; reflexivity.
Qed.

(** *** Autocompletion *)

Lemma prefix_refl_empty s : String.prefix EmptyString s = true.
Proof. destruct s; reflexivity. Qed.

Lemma prefix_trans s t u :
  String.prefix s t = true -> String.prefix t u = true -> String.prefix s u = true.
Proof.
  revert t u. induction s as [|c s IH]; intros t u; [intros _ _; apply prefix_refl_empty|].
  destruct t as [|d t]; [discriminate|]. destruct u as [|e u]; [discriminate|].
  simpl. destruct (ascii_dec c d) as [->|]; [|discriminate].
  destruct (ascii_dec d e) as [->|]; [|discriminate].
  apply IH.
Qed.

(** Typing on never brings an item back: what is offered for a text is
    among what was offered for any beginning of it, and everything is
    offered for the empty text.  An item is offered exactly when its
    value starts with the text. *)
Theorem autocomplete_narrows_as_the_text_grows text longer pos pos' :
  String.prefix text longer = true ->
  incl (autocompleteFunc longer pos') (autocompleteFunc text pos) /\
  autocompleteFunc EmptyString pos = autocompleteItems /\
  (forall item, In item (autocompleteFunc text pos) <->
                In item autocompleteItems /\ String.prefix text (Value item) = true).
Proof.
  intros Hp. split; [|split].
  - intros item Hin. unfold autocompleteFunc in *.
    apply filter_In in Hin as [Hin Hl]. apply filter_In. split; [exact Hin|].
    exact (prefix_trans _ _ _ Hp Hl).
  - reflexivity.
  - intros item. unfold autocompleteFunc. apply filter_In.
Qed.

(** *** The application in the context *)

(** GetApp finds the application LoadApp put in the context, the latest
    one when there are several, whatever else was added under other keys
    since; on a context without one it panics, and so it does when the
    latest value under the key is not an application. *)
Theorem GetApp_finds_what_LoadApp_stored (App : Type) (ctx : Context App)
    (app : App) key v other :
  GetApp (LoadApp ctx app) = Some app /\
  (key <> appCtxKey -> GetApp (WithValue ctx key v) = GetApp ctx) /\
  GetApp (Background : Context App) = None /\
  GetApp (WithValue (LoadApp ctx app) appCtxKey (otherValue other)) = None.
Proof.
  split; [reflexivity|]. split; [|split; reflexivity].
  intros Hne. unfold GetApp, WithValue. cbn [ContextValue].
  destruct (String.eqb_spec key appCtxKey); [contradiction | reflexivity].
Qed.

(** *** The theorems at concrete inputs *)

Import examples.

Lemma SaveToHistory_appends_new_text_at_the_end_witness :
  openFault (history ("find" ++ nl)) = None /\
  "sort" <> EmptyString /\ singleLine "sort" = true /\
  terminated (contents (history ("find" ++ nl))) = true /\
  LoadHistory (fst (SaveToHistory "sort" (history ("find" ++ nl))))
  = (["find"; "sort"], None).
Proof.
  assert (Hne : "sort" <> EmptyString) by discriminate.
  split; [reflexivity|]. split; [exact Hne|]. split; [reflexivity|].
  split; [reflexivity|].
  exact (proj2 (SaveToHistory_appends_new_text_at_the_end
                  (history ("find" ++ nl)) "sort"
                  eq_refl eq_refl eq_refl Hne eq_refl eq_refl)).
Defined.

Lemma SaveToHistory_keeps_the_history_free_of_duplicates_witness :
  NoDup (fst (LoadHistory (history ("find" ++ nl)))) /\
  NoDup (fst (LoadHistory (fst (SaveToHistory "find" (history ("find" ++ nl)))))).
Proof.
  assert (Hne : "find" <> EmptyString) by discriminate.
  assert (Hnd : NoDup (fst (LoadHistory (history ("find" ++ nl))))).
  { repeat constructor. intros []. }
  split; [exact Hnd|].
  exact (proj1 (SaveToHistory_keeps_the_history_free_of_duplicates
                  (history ("find" ++ nl)) "find"
                  eq_refl eq_refl eq_refl Hne eq_refl eq_refl Hnd)).
Defined.


Lemma Toggle_twice_witness :
  IsEnabled (typing "{}") = true /\
  components (Toggle (Toggle (typing "{}"))) = [InputBarComponent; "Content"] /\
  IsEnabled (Disable (typing "{}")) = false /\
  Toggle (Toggle (Disable (typing "{}"))) = Disable (typing "{}").
Proof.
  assert (H : IsEnabled (typing "{}") = true) by reflexivity.
  assert (H' : IsEnabled (Disable (typing "{}")) = false) by reflexivity.
  split; [exact H|].
  destruct (Toggle_twice (typing "{}")) as (_ & _ & T).
  split; [exact (proj2 (T H))|]. split; [exact H'|].
  destruct (Toggle_twice (Disable (typing "{}"))) as (_ & F & _).
  exact (F H').
Defined.

Lemma EventListener_calls_back_for_every_Enter_and_Esc_witness :
  flat_map (callbackFor (GetText (typing "{}")))
    [otherEvent; keyEvent (KeyOther 9)] = [] /\
  EventListener [otherEvent; keyEvent (KeyOther 9)] (typing "{}") = typing "{}".
Proof.
  assert (H : flat_map (callbackFor (GetText (typing "{}")))
                [otherEvent; keyEvent (KeyOther 9)] = []) by reflexivity.
  split; [exact H|].
  exact (proj2 (EventListener_calls_back_for_every_Enter_and_Esc _ (typing "{}")) H).
Defined.

Lemma autocomplete_narrows_as_the_text_grows_witness :
  String.prefix "Ob" "Obj" = true /\
  incl (autocompleteFunc "Obj" 3) (autocompleteFunc "Ob" 2).
Proof.
  assert (H : String.prefix "Ob" "Obj" = true) by reflexivity.
  split; [exact H|].
  exact (proj1 (autocomplete_narrows_as_the_text_grows "Ob" "Obj" 2 3 H)).
Defined.

Lemma GetApp_finds_what_LoadApp_stored_witness :
  "trace" <> appCtxKey /\
  GetApp (WithValue (LoadApp Background 7) "trace" (otherValue "on")) = Some 7.
Proof.
  assert (H : "trace" <> appCtxKey) by discriminate.
  split; [exact H|].
  destruct (GetApp_finds_what_LoadApp_stored nat (LoadApp Background 7) 7
              "trace" (otherValue "on") "x") as (_ & O & _).
  rewrite (O H).
  exact (proj1 (GetApp_finds_what_LoadApp_stored nat Background 7
                  "trace" (otherValue "on") "x")).
Defined.

End component_more.

(* ================================================================== *)
(** ** More on the data-access object                                  *)
(* ================================================================== *)

Module mongo_more.

Import mongo.

Section Listing.

Variable matches : M -> M -> bool.

(** The empty filter matches every document. *)
Hypothesis matches_empty : forall document, matches [] document = true.



Lemma skipn_1_firstn {A} n (l : list A) :
  skipn 1 (firstn (S n) l) = firstn n (skipn 1 l).
Proof. destruct l; [destruct n; reflexivity | reflexivity]. Qed.

Lemma skipn_1_skipn {A} n (l : list A) : skipn 1 (skipn n l) = skipn (S n) l.
Proof.
  revert l. induction n as [|n IH]; intros l; [reflexivity|].
  destruct l as [|x r]; [reflexivity|]. exact (IH r).
Qed.

Lemma firstn_filter_sub {A} (f : A -> bool) n k (l : list A) x :
  In x (firstn n (skipn k (List.filter f l))) -> In x l /\ f x = true.
Proof.
  intros H. apply filter_In.
  rewrite <- (firstn_skipn k (List.filter f l)). apply in_or_app. right.
  rewrite <- (firstn_skipn n (skipn k (List.filter f l))). apply in_or_app.
  left. exact H.
Qed.

(** With a page that is not negative and a positive limit, ListDocuments
    returns at most limit documents, each one of the collection and
    matching the filter; and page counts documents, not pages: the next
    page starts one document further. *)
Theorem ListDocuments_page_is_an_offset_in_documents db coll filter page limit d :
  (0 <= page)%Z -> (0 < limit)%Z ->
  let listed p l := fst (fst (ListDocuments matches db coll filter p l d)) in
  (List.length (listed page limit) <= Z.to_nat limit)%nat /\
  (forall document, In document (listed page limit) ->
     In document (documents (client d) db coll) /\ matches filter document = true) /\
  listed (page + 1)%Z limit = skipn 1 (listed page (limit + 1)%Z).
Proof.
  intros Hp Hl. cbv zeta. unfold ListDocuments, Find.
  destruct (Z.ltb_spec page 0) as [H|_]; [lia|].
  destruct (Z.ltb_spec (page + 1) 0) as [H|_]; [lia|].
  destruct (Z.eqb_spec limit 0) as [H|_]; [lia|].
  destruct (Z.eqb_spec (limit + 1) 0) as [H|_]; [lia|].
  cbn [fst snd]. split; [|split].
  - rewrite length_firstn. lia.
  - intros document H. exact (firstn_filter_sub _ _ _ _ _ H).
  - replace (Z.to_nat (Z.abs (limit + 1))) with (S (Z.to_nat (Z.abs limit))) by lia.
    replace (Z.to_nat (page + 1)) with (S (Z.to_nat page)) by lia.
    rewrite skipn_1_firstn, skipn_1_skipn. reflexivity.
Qed.


End Listing.

Import examples.



Lemma ListDocuments_page_is_an_offset_in_documents_witness :
  (0 <= 0)%Z /\ (0 < 1)%Z /\
  fst (fst (ListDocuments fieldsMatch "app" "users" [] 1 1 store))
  = skipn 1 (fst (fst (ListDocuments fieldsMatch "app" "users" [] 0 2 store))).
Proof.
  assert (H : (0 <= 0)%Z) by lia.
  assert (H' : (0 < 1)%Z) by lia.
  split; [exact H|]. split; [exact H'|].
  exact (proj2 (proj2 (ListDocuments_page_is_an_offset_in_documents
                         fieldsMatch "app" "users" [] 0 1 store H H'))).
Defined.


End mongo_more.

(* ================================================================== *)
(** ** Merging configurations                                          *)
(* ================================================================== *)

Module util_facts.

Import reflect util.

Lemma sameType_Struct t fs u gs :
  sameType (Struct t fs) (Struct u gs) = String.eqb t u && sameFields fs gs.
Proof. reflexivity. Qed.

Lemma sameFields_cons n f fs m g gs :
  sameFields ((n, f) :: fs) ((m, g) :: gs)
  = String.eqb n m && sameType f g && sameFields fs gs.
Proof. reflexivity. Qed.

Lemma zero_Struct t fs : zero (Struct t fs) = Struct t (zeroFields fs).
Proof. reflexivity. Qed.

Lemma stringsOnly_Struct t fs : stringsOnly (Struct t fs) = stringsOnlyFields fs.
Proof. reflexivity. Qed.

Lemma merge_Struct t fs d :
  mergeConfigsRecursive (Struct t fs) d
  = Struct t (mergeFields fs (match d with Struct _ ds => ds | _ => [] end)).
Proof. reflexivity. Qed.

Lemma mergeFields_no_default fs : mergeFields fs [] = fs.
Proof.
  induction fs as [|[n f] r IH]; [reflexivity|]. cbn [mergeFields].
  rewrite IH. reflexivity.
Qed.

Lemma merge_not_Struct l d : isStruct l = false -> mergeConfigsRecursive l d = l.
Proof. destruct l; [reflexivity.. | discriminate]. Qed.

(** Merging a value into itself changes nothing. *)
Lemma merge_self d : mergeConfigsRecursive d d = d.
Proof.
  induction d as [s|l|r|t fs IH] using Value_fields_ind; try reflexivity.
  rewrite merge_Struct. f_equal.
  induction fs as [|[n f] r IHr]; [reflexivity|].
  inversion IH as [|x l Hf Hr]; subst. cbn [mergeFields].
  rewrite (IHr Hr). f_equal. f_equal.
  destruct f as [s|[|x l]|o|t' fs']; cbn [mergeField]; try reflexivity.
  - destruct (isEmptyString s); reflexivity.
  - exact Hf.
Qed.

Lemma mergeField_self f : mergeField f f = f.
Proof.
  destruct f as [s|[|x l]|o|t' fs']; cbn [mergeField]; try reflexivity.
  - destruct (isEmptyString s); reflexivity.
  - apply merge_self.
Qed.

(** Merging the defaults in a second time changes nothing more. *)
Theorem MergeConfigs_is_idempotent loaded defaultConfig :
  MergeConfigs (MergeConfigs loaded defaultConfig) defaultConfig
  = MergeConfigs loaded defaultConfig /\
  MergeConfigs defaultConfig defaultConfig = defaultConfig.
Proof.
  unfold MergeConfigs. split; [|apply merge_self].
  revert defaultConfig.
  induction loaded as [s|l|r|t fs IH] using Value_fields_ind;
    intros d; try reflexivity.
  rewrite !merge_Struct. f_equal.
  generalize (match d with Struct _ ds => ds | _ => [] end). clear d.
  induction fs as [|[n f] r IHr]; intros ds; [reflexivity|].
  inversion IH as [|x l Hf Hr]; subst.
  destruct ds as [|[m df] ds']; cbn [mergeFields].
  - rewrite !mergeFields_no_default. reflexivity.
  - rewrite (IHr Hr). f_equal. f_equal.
    destruct f as [s|[|x l]|o|t' fs']; cbn [mergeField].
    + destruct (isEmptyString s) eqn:E.
      * apply mergeField_self.
      * cbn [mergeField]. rewrite E. reflexivity.
    + apply mergeField_self.
    + reflexivity.
    + reflexivity.
    + rewrite merge_Struct. cbn [mergeField]. rewrite <- merge_Struct.
      apply Hf.
Qed.

Lemma mergeField_zero f : stringsOnly f = true -> mergeField (zero f) f = f.
Proof.
  induction f as [s|l|r|t fs IH] using Value_fields_ind;
    try reflexivity; try discriminate.
  rewrite stringsOnly_Struct, zero_Struct. cbn [mergeField].
  rewrite merge_Struct. intros Hs. f_equal.
  induction fs as [|[n f] r IHr]; [reflexivity|].
  inversion IH as [|x l Hf Hr]; subst.
  change (stringsOnlyFields ((n, f) :: r))
    with (stringsOnly f && stringsOnlyFields r) in Hs.
  apply andb_true_iff in Hs as [Hsf Hsr].
  change (zeroFields ((n, f) :: r)) with ((n, zero f) :: zeroFields r).
  cbn [mergeFields]. cbn [snd] in Hf. rewrite (IHr Hr Hsr), (Hf Hsf). reflexivity.
Qed.

(** A configuration that says nothing (the zero value of its type)
    merges to the defaults, for a struct made of strings, slices of
    strings and structs. *)
Theorem MergeConfigs_of_nothing_is_the_defaults defaultConfig :
  isStruct defaultConfig = true -> stringsOnly defaultConfig = true ->
  MergeConfigs (zero defaultConfig) defaultConfig = defaultConfig.
Proof.
  unfold MergeConfigs. intros Hst Hs.
  destruct defaultConfig as [s|l|r|t fs]; try discriminate.
  pose proof (mergeField_zero (Struct t fs) Hs) as H.
  rewrite zero_Struct in H |- *. exact H.
Qed.

Lemma MergeConfigs_of_nothing_is_the_defaults_witness :
  isStruct keys.loadDefaultKeybindings = true /\
  stringsOnly keys.loadDefaultKeybindings = true /\
  MergeConfigs (zero keys.loadDefaultKeybindings) keys.loadDefaultKeybindings
  = keys.loadDefaultKeybindings.
Proof.
  assert (H : stringsOnly keys.loadDefaultKeybindings = true) by reflexivity.
  assert (H' : isStruct keys.loadDefaultKeybindings = true) by reflexivity.
  split; [exact H'|]. split; [exact H|].
  exact (MergeConfigs_of_nothing_is_the_defaults _ H' H).
Defined.

End util_facts.

(* ================================================================== *)
(** ** Key bindings                                                    *)
(* ================================================================== *)

Module keys_facts.

Import reflect util keys util_facts.

Lemma extract_Struct t fs : extractKeysFromStruct (Struct t fs) = extractFields fs.
Proof. reflexivity. Qed.

Lemma keysTyped_Struct t fs :
  keysTyped (Struct t fs)
  = (if String.eqb t "Key"
     then match asKey (Struct t fs) with Some _ => true | None => false end
     else true) && keysTypedFields fs.
Proof. reflexivity. Qed.

Lemma asKey_keyValue k : asKey (keyValue k) = Some k.
Proof. destruct k; reflexivity. Qed.

Lemma asKey_Struct t fs k :
  asKey (Struct t fs) = Some k ->
  t = "Key" /\
  exists n1 n2 n3,
    fs = [(n1, Slice (Keys k)); (n2, Slice (Runes k)); (n3, String_ (Description k))].
Proof.
  destruct fs as [|[n1 [ | ks | | ]] [|[n2 [ | rs | | ]] [|[n3 [ d | | | ]] [|]]]];
    try discriminate.
  cbn [asKey]. destruct (String.eqb_spec t "Key") as [->|]; [|discriminate].
  intros [= <-]. split; [reflexivity|]. exists n1, n2, n3. reflexivity.
Qed.

Lemma asKey_other_type t fs : t <> "Key" -> asKey (Struct t fs) = None.
Proof.
  intros H. destruct (asKey (Struct t fs)) as [k|] eqn:E; [|reflexivity].
  destruct (asKey_Struct _ _ _ E) as [-> _]. contradiction.
Qed.

Lemma asKey_merge_other_type t ff g :
  t <> "Key" -> asKey (mergeConfigsRecursive (Struct t ff) g) = None.
Proof. intros H. rewrite merge_Struct. apply asKey_other_type, H. Qed.

Lemma isStruct_merge t ff g :
  exists fs, mergeConfigsRecursive (Struct t ff) g = Struct t fs.
Proof. eexists. apply merge_Struct. Qed.

Lemma asKey_not_Struct v : isStruct v = false -> asKey v = None.
Proof. destruct v; [reflexivity.. | discriminate]. Qed.

(** Where the default is a key, so is the loaded value of its type, and
    they merge as keys. *)
Lemma asKey_merge f g kg :
  sameType f g = true -> asKey g = Some kg ->
  exists kf, asKey f = Some kf /\ asKey (mergeField f g) = Some (mergeKey kf kg).
Proof.
  intros Hs Hg. destruct g as [ | | |tg gf]; try discriminate.
  destruct (asKey_Struct _ _ _ Hg) as (-> & n1 & n2 & n3 & ->).
  destruct f as [ | | |tf ff]; try discriminate.
  rewrite sameType_Struct in Hs. apply andb_true_iff in Hs as [Ht Hf].
  apply String.eqb_eq in Ht. subst tf.
  destruct ff as [|[m1 [ | ks | | ]] [|[m2 [ | rs | | ]] [|[m3 [ d | | | ]] [|[m4 f4] ff]]]];
    try discriminate;
    try (cbn in Hf;
         repeat match type of Hf with
                | context [String.eqb ?a ?b] => destruct (String.eqb a b)
                end;
         discriminate).
  exists {| Keys := ks; Runes := rs; Description := d |}. split; [reflexivity|].
  cbn [mergeField]. rewrite merge_Struct. cbn [mergeFields mergeField].
  destruct kg as [ks' rs' d']. unfold mergeKey. cbn [Keys Runes Description].
  destruct ks, rs, (isEmptyString d); reflexivity.
Qed.

Lemma combine_app_same {A B} (a a' : list A) (b b' : list B) :
  List.length a = List.length b ->
  combine (a ++ a') (b ++ b') = (combine a b ++ combine a' b')%list.
Proof.
  revert b. induction a as [|x a IH]; intros [|y b] H; try discriminate.
  - reflexivity.
  - simpl. rewrite IH; [reflexivity | simpl in H; lia].
Qed.

Lemma mergeKeys_app a a' b b' :
  List.length a = List.length b ->
  mergeKeys (a ++ a') (b ++ b') = (mergeKeys a b ++ mergeKeys a' b')%list.
Proof.
  intros H. unfold mergeKeys. rewrite (combine_app_same _ _ _ _ H), map_app.
  reflexivity.
Qed.

Lemma extract_merge_fields fs :
  Forall (fun f => forall g,
            sameType (snd f) g = true -> keysTyped g = true ->
            List.length (extractKeysFromStruct (snd f))
            = List.length (extractKeysFromStruct g) /\
            extractKeysFromStruct (mergeConfigsRecursive (snd f) g)
            = mergeKeys (extractKeysFromStruct (snd f)) (extractKeysFromStruct g)) fs ->
  forall gs,
    sameFields fs gs = true -> keysTypedFields gs = true ->
    List.length (extractFields fs) = List.length (extractFields gs) /\
    extractFields (mergeFields fs gs) = mergeKeys (extractFields fs) (extractFields gs).
Proof.
  induction fs as [|[n f] fs' IHfs]; intros IH gs Hs Ht.
  - destruct gs; [split; reflexivity | discriminate].
  - destruct gs as [|[m g] gs']; [discriminate|].
    rewrite sameFields_cons in Hs.
    apply andb_true_iff in Hs as [Hs Hs']. apply andb_true_iff in Hs as [_ Hfg].
    change (keysTypedFields ((m, g) :: gs'))
      with (keysTyped g && keysTypedFields gs') in Ht.
    apply andb_true_iff in Ht as [Htg Ht'].
    inversion IH as [|x l Hf Hr]; subst. cbn [snd] in Hf.
    destruct (IHfs Hr gs' Hs' Ht') as [Lr Er].
    cbn [mergeFields extractFields].
    destruct (asKey g) as [kg|] eqn:Eg.
    + destruct (asKey_merge f g kg Hfg Eg) as (kf & Ef & Em).
      rewrite Ef, Em. split; [simpl; rewrite Lr; reflexivity|].
      rewrite Er. reflexivity.
    + destruct g as [sg|lg|og|tg gf].
      * destruct f; try discriminate. cbn [mergeField asKey].
        destruct (isEmptyString s); cbn [asKey]; split; assumption.
      * destruct f as [|lf| |]; try discriminate. cbn [mergeField asKey].
        destruct lf; cbn [asKey]; split; assumption.
      * destruct f; try discriminate. cbn [mergeField asKey]. split; assumption.
      * destruct f as [ | | |tf ff]; try discriminate.
        assert (Hne : tg <> "Key").
        { intros ->. rewrite keysTyped_Struct, Eg in Htg. discriminate. }
        assert (Htf : tf = tg).
        { rewrite sameType_Struct in Hfg. apply andb_true_iff in Hfg as [H _].
          apply String.eqb_eq. exact H. }
        subst tf. cbn [mergeField].
        rewrite (asKey_other_type _ ff Hne).
        rewrite (asKey_merge_other_type _ ff (Struct tg gf) Hne).
        destruct (isStruct_merge tg ff (Struct tg gf)) as (mf & Em).
        destruct (Hf _ Hfg Htg) as [Lf Ef]. rewrite Em in Ef |- *.
        split.
        -- rewrite !length_app, Lf, Lr. reflexivity.
        -- rewrite Ef, Er, (mergeKeys_app _ _ _ _ Lf). reflexivity.
Qed.

Lemma extract_merge l :
  forall d,
    sameType l d = true -> keysTyped d = true ->
    List.length (extractKeysFromStruct l) = List.length (extractKeysFromStruct d) /\
    extractKeysFromStruct (mergeConfigsRecursive l d)
    = mergeKeys (extractKeysFromStruct l) (extractKeysFromStruct d).
Proof.
  induction l as [s|sl|r|t fs IH] using Value_fields_ind; intros d Hs Ht;
    try (destruct d; try discriminate; split; reflexivity).
  destruct d as [ | | |u gs]; try discriminate.
  rewrite sameType_Struct in Hs. apply andb_true_iff in Hs as [_ Hs].
  rewrite keysTyped_Struct in Ht. apply andb_true_iff in Ht as [_ Ht].
  rewrite merge_Struct, !extract_Struct.
  exact (extract_merge_fields fs IH gs Hs Ht).
Qed.

(** Merging works key by key: the keys of the merged configuration are
    those of the loaded one, each with the default keys, the default
    runes and the default description where its own are empty. *)
Theorem MergeConfigs_merges_every_key_by_itself loaded defaultConfig :
  sameType loaded defaultConfig = true -> keysTyped defaultConfig = true ->
  extractKeysFromStruct (MergeConfigs loaded defaultConfig)
  = mergeKeys (extractKeysFromStruct loaded) (extractKeysFromStruct defaultConfig) /\
  List.length (extractKeysFromStruct (MergeConfigs loaded defaultConfig))
  = List.length (extractKeysFromStruct defaultConfig).
Proof.
  intros Hs Ht. destruct (extract_merge loaded defaultConfig Hs Ht) as [L E].
  unfold MergeConfigs. split; [exact E|].
  rewrite E. unfold mergeKeys. rewrite length_map, length_combine, L.
  apply Nat.min_id.
Qed.



(** *** The elements *)

Lemma FieldByName_found fs n f :
  NoDup (map fst fs) -> In (n, f) fs -> FieldByName fs n = Some f.
Proof.
  induction fs as [|[m g] r IH]; [intros _ []|].
  cbn [map fst]. intros Hnd [[= -> ->]|Hin]; cbn [FieldByName].
  - rewrite String.eqb_refl. reflexivity.
  - inversion Hnd as [|x l Hx Hr]; subst.
    destruct (String.eqb_spec m n) as [->|_]; [|exact (IH Hr Hin)].
    exfalso. apply Hx. apply in_map_iff. exists (n, f). split; [reflexivity | exact Hin].
Qed.

Lemma FieldByName_missing fs n :
  ~ In n (map fst fs) -> FieldByName fs n = None.
Proof.
  induction fs as [|[m g] r IH]; [reflexivity|]. cbn [map fst FieldByName].
  intros H. destruct (String.eqb_spec m n) as [->|_].
  - exfalso. apply H. left. reflexivity.
  - apply IH. intros Hin. apply H. right. exact Hin.
Qed.

(** GetKeysForElement returns, for the name of an element, the one entry
    GetAvaliableKeys has for it; for the empty name and for a name that
    is no element it returns an error and no entry.  (Field names are
    unique and every field of the key bindings is a struct.) *)
Theorem GetKeysForElement_agrees_with_GetAvaliableKeys kb :
  NoDup (map fst (fieldsOf kb)) ->
  forallb (fun f => isStruct (snd f)) (fieldsOf kb) = true ->
  (forall entry, In entry (GetAvaliableKeys kb) -> Element entry <> EmptyString ->
     GetKeysForElement (Element entry) kb = ([entry], None)) /\
  (forall elementId, ~ In elementId (map fst (fieldsOf kb)) ->
     fst (GetKeysForElement elementId kb) = [] /\
     snd (GetKeysForElement elementId kb) <> None) /\
  GetKeysForElement EmptyString kb = ([], Some "element is empty").
Proof.
  intros Hnd Hst. split; [|split; [|reflexivity]].
  - intros entry Hin Hne. unfold GetAvaliableKeys in Hin.
    apply in_map_iff in Hin as ([n f] & <- & Hin). cbn [Element fst snd] in *.
    unfold GetKeysForElement.
    destruct (String.eqb_spec n EmptyString) as [->|_]; [contradiction|].
    rewrite (FieldByName_found _ _ _ Hnd Hin).
    rewrite forallb_forall in Hst. specialize (Hst _ Hin). cbn [snd] in Hst.
    destruct f; try discriminate. reflexivity.
  - intros elementId Hni. unfold GetKeysForElement.
    destruct (String.eqb elementId EmptyString); [split; [reflexivity | discriminate]|].
    rewrite (FieldByName_missing _ _ Hni). split; [reflexivity | discriminate].
Qed.

(** *** Showing a key *)

Lemma concat_empty_cons a l :
  String.concat EmptyString (a :: l) = (a ++ String.concat EmptyString l)%string.
Proof.
  destruct l; simpl; [rewrite component_facts.append_empty_r|]; reflexivity.
Qed.

Lemma joinFrom_later i acc l :
  joinFrom (S i) acc l
  = (acc ++ String.concat EmptyString (map (fun k => ", " ++ k) l))%string.
Proof.
  revert i acc. induction l as [|k r IH]; intros i acc.
  - simpl. rewrite component_facts.append_empty_r. reflexivity.
  - cbn [joinFrom Nat.eqb map]. rewrite IH, concat_empty_cons.
    rewrite !component_facts.append_assoc. reflexivity.
Qed.

Lemma concat_sep k r :
  String.concat ", " (k :: r)
  = (k ++ String.concat EmptyString (map (fun x => ", " ++ x) r))%string.
Proof.
  revert k. induction r as [|x r IH]; intros k.
  - simpl. rewrite component_facts.append_empty_r. reflexivity.
  - change (String.concat ", " (k :: x :: r))
      with (k ++ ", " ++ String.concat ", " (x :: r))%string.
    cbn [map]. rewrite IH, concat_empty_cons.
    rewrite !component_facts.append_assoc. reflexivity.
Qed.

(** String shows the names of the keys joined by a comma and a space,
    or those of the runes when the binding has no key: the runes of a
    binding that has both are not shown. *)
Theorem KeyString_joins_the_keys_or_else_the_runes k :
  KeyString k = String.concat ", " (match Keys k with
                                    | [] => Runes k
                                    | _ :: _ => Keys k
                                    end).
Proof.
  unfold KeyString. destruct (Keys k) as [|x r].
  - destruct (Runes k) as [|y s]; [reflexivity|].
    cbn [joinFrom Nat.eqb]. rewrite joinFrom_later, concat_sep. reflexivity.
  - cbn [joinFrom Nat.eqb]. rewrite joinFrom_later, concat_sep. reflexivity.
Qed.

(** *** Names of keys *)

(** ConvertStrKeyToTcellKey finds the key a name belongs to, given that
    no two keys of the table share a name; a name the table does not
    have gives -1 and false. *)
Theorem ConvertStrKeyToTcellKey_inverts_the_names KeyNames :
  NoDup (map snd KeyNames) ->
  (forall k name, In (k, name) KeyNames ->
     ConvertStrKeyToTcellKey KeyNames name = (k, true)) /\
  (forall name, ~ In name (map snd KeyNames) ->
     ConvertStrKeyToTcellKey KeyNames name = ((-1)%Z, false)).
Proof.
  intros Hnd. split.
  - induction KeyNames as [|[k' v] r IH]; [intros k name []|].
    cbn [map snd] in Hnd. inversion Hnd as [|x l Hx Hr]; subst.
    intros k name [[= -> ->]|Hin]; cbn [ConvertStrKeyToTcellKey].
    + rewrite String.eqb_refl. reflexivity.
    + destruct (String.eqb_spec v name) as [->|_]; [|exact (IH Hr k name Hin)].
      exfalso. apply Hx. apply in_map_iff. exists (k, name).
      split; [reflexivity | exact Hin].
  - clear Hnd. induction KeyNames as [|[k' v] r IH]; intros name Hni; [reflexivity|].
    cbn [ConvertStrKeyToTcellKey]. cbn [map snd] in Hni.
    destruct (String.eqb_spec v name) as [->|_].
    + exfalso. apply Hni. left. reflexivity.
    + apply IH. intros H. apply Hni. right. exact H.
Qed.

(** *** Matching a key event *)

Lemma prefix_Rune name :
  String.prefix "Rune" name = true -> exists rest, name = ("Rune" ++ rest)%string.
Proof.
  intros H. apply String.prefix_correct in H.
  destruct name as [|c1 [|c2 [|c3 [|c4 rest]]]]; try discriminate H.
  simpl in H. exists rest. destruct rest; injection H as -> -> -> ->; reflexivity.
Qed.

Lemma Contains_Rune k rest :
  ("Rune" ++ rest)%string <> "Rune[ ]" ->
  Contains k ("Rune" ++ rest) =
  match Runes k with
  | [] => Some (inList rest (Keys k))
  | _ :: _ =>
      match slice_1_2 rest with
      | None => None
      | Some r => if inList r (Runes k) then Some true
                  else Some (inList rest (Keys k))
      end
  end.
Proof.
  intros Hne. unfold Contains.
  destruct (String.eqb_spec ("Rune" ++ rest) "Rune[ ]") as [E|_]; [contradiction|].
  assert (B : String.eqb ("Rune" ++ rest) "Backspace" = false) by reflexivity.
  assert (P : String.prefix "Rune" ("Rune" ++ rest) = true)
    by (destruct rest; reflexivity).
  assert (T : TrimPrefix ("Rune" ++ rest) "Rune" = rest)
    by (unfold TrimPrefix; rewrite P; reflexivity).
  rewrite B, P, T. reflexivity.
Qed.

(** A key the toolkit reports by a name that does not start with Rune
    triggers a binding exactly when the name is among its keys, its
    runes playing no part; Backspace is looked up as Ctrl+H, so that a
    binding to the key Backspace alone is never triggered by it; and
    the space bar is looked up as the key Space, never among the runes. *)
Theorem Contains_looks_a_named_key_up_among_the_keys k name :
  String.prefix "Rune" name = false ->
  Contains k name
  = Some (inList (if String.eqb name "Backspace" then "Ctrl+H" else name) (Keys k)) /\
  Contains k "Rune[ ]" = Some (inList "Space" (Keys k)).
Proof.
  intros Hp. split; [|reflexivity]. unfold Contains.
  destruct (String.eqb_spec name "Rune[ ]") as [->|_]; [discriminate|].
  destruct (String.eqb_spec name "Backspace") as [->|_]; [reflexivity|].
  rewrite Hp. reflexivity.
Qed.

(** A rune the toolkit reports as Rune[..] triggers a binding when the
    one byte after the bracket is among its runes, or when what follows
    Rune is among its keys; nothing else of the name is compared with
    the runes. *)
Theorem Contains_compares_one_byte_with_the_runes k bracket byte rest :
  ("Rune" ++ String bracket (String byte rest))%string <> "Rune[ ]" ->
  Contains k ("Rune" ++ String bracket (String byte rest))
  = Some (inList (String byte EmptyString) (Runes k)
          || inList (String bracket (String byte rest)) (Keys k)).
Proof.
  intros Hne. rewrite (Contains_Rune k _ Hne). cbn [slice_1_2].
  destruct (Runes k) as [|r rs]; [reflexivity|].
  destruct (inList _ (r :: rs)); reflexivity.
Qed.

(** Contains panics exactly when the binding has a rune and the name
    starts with Rune and has fewer than two bytes after it. *)
Theorem Contains_panics_on_a_short_rune_name k name :
  Contains k name = None <->
  Runes k <> [] /\ String.prefix "Rune" name = true /\ String.length name < 6.
Proof.
  destruct (String.prefix "Rune" name) eqn:Hp.
  - destruct (prefix_Rune _ Hp) as (rest & ->).
    destruct (String.eqb_spec ("Rune" ++ rest) "Rune[ ]") as [E|Hne].
    + rewrite E. split; [discriminate|]. intros (_ & _ & H). simpl in H. lia.
    + rewrite (Contains_Rune k rest Hne).
      destruct (Runes k) as [|r rs].
      * split; [discriminate|]. intros (H & _). contradiction.
      * destruct rest as [|a [|b t]]; cbn [slice_1_2].
        -- split; [intros _|reflexivity].
           split; [discriminate|]. split; [reflexivity | simpl; lia].
        -- split; [intros _|reflexivity].
           split; [discriminate|]. split; [reflexivity | simpl; lia].
        -- split.
           ++ destruct (inList _ _); discriminate.
           ++ intros (_ & _ & H). simpl in H. lia.
  - destruct (Contains_looks_a_named_key_up_among_the_keys k name Hp) as [E _].
    rewrite E. split; [discriminate|]. intros (_ & H & _). discriminate.
Qed.

(** *** The defaults *)

Lemma forallb_conj {A} (f g : A -> bool) l :
  forallb (fun x => f x && g x) l = true ->
  forall x, In x l -> f x = true /\ g x = true.
Proof.
  intros H x Hin. rewrite forallb_forall in H.
  apply andb_true_iff. exact (H x Hin).
Qed.

Lemma triggers_spec k :
  triggers k = true ->
  (forall name, In name (Keys k) -> Contains k name = Some true) /\
  (forall r, In r (Runes k) -> Contains k ("Rune[" ++ r ++ "]") = Some true).
Proof.
  unfold triggers. intros H. apply andb_true_iff in H as [H1 H2].
  rewrite forallb_forall in H1, H2. split.
  - intros name Hin. specialize (H1 _ Hin).
    destruct (Contains k name) as [[|]|]; try discriminate. reflexivity.
  - intros r Hin. specialize (H2 _ Hin).
    destruct (Contains k ("Rune[" ++ r ++ "]")) as [[|]|]; try discriminate.
    reflexivity.
Qed.

(** Every default binding can be pressed and shown: it has a key or a
    rune and a description, every key it lists triggers it under its
    name, and every rune it lists triggers it as Rune[..]. *)
Theorem default_bindings_are_bound_and_triggered entry k :
  In entry (GetAvaliableKeys loadDefaultKeybindings) -> In k (Keys_ entry) ->
  bound k = true /\
  (forall name, In name (Keys k) -> Contains k name = Some true) /\
  (forall r, In r (Runes k) -> Contains k ("Rune[" ++ r ++ "]") = Some true).
Proof.
  intros He Hk.
  assert (H : forallb (fun e => forallb (fun k => bound k && triggers k) (Keys_ e))
                (GetAvaliableKeys loadDefaultKeybindings) = true)
    by (vm_compute; reflexivity).
  rewrite forallb_forall in H. specialize (H _ He).
  destruct (forallb_conj _ _ _ H k Hk) as [Hb Ht].
  split; [exact Hb | exact (triggers_spec k Ht)].
Qed.

(** *** Loading the key bindings *)

Section Loading.

Variable GetConfigDir : string * option error.
Variable ReadFile : string -> string * option error.
Variable IsNotExist : error -> bool.
Variable Getenv : string -> string.
Variable ensureConfigDirExist : option error.
Variable Marshal : Value -> string * option error.
Variable WriteFile : string -> string -> option error.
Variable Unmarshal : string -> Value -> Value * option error.

(** Decoding into key bindings gives key bindings. *)
Hypothesis Unmarshal_typed :
  forall bytes into v, Unmarshal bytes into = (v, None) -> sameType v into = true.




End Loading.

(** *** The theorems at concrete inputs *)

Import examples.

Lemma MergeConfigs_merges_every_key_by_itself_witness :
  sameType helpLoaded helpDefault = true /\ keysTyped helpDefault = true /\
  extractKeysFromStruct (MergeConfigs helpLoaded helpDefault)
  = [{| Keys := ["Esc"]; Runes := ["q"]; Description := "Close help" |}].
Proof.
  assert (S : sameType helpLoaded helpDefault = true) by reflexivity.
  assert (T : keysTyped helpDefault = true) by reflexivity.
  split; [exact S|]. split; [exact T|].
  exact (proj1 (MergeConfigs_merges_every_key_by_itself helpLoaded helpDefault S T)).
Defined.

Lemma GetKeysForElement_agrees_with_GetAvaliableKeys_witness :
  NoDup (map fst (fieldsOf loadDefaultKeybindings)) /\
  forallb (fun f => isStruct (snd f)) (fieldsOf loadDefaultKeybindings) = true /\
  fst (GetKeysForElement "Help" loadDefaultKeybindings)
  = [{| Element := "Help";
        Keys_ := [{| Keys := ["Esc"]; Runes := []; Description := "Close help" |}] |}] /\
  snd (GetKeysForElement "help" loadDefaultKeybindings) <> None.
Proof.
  assert (N : NoDup (map fst (fieldsOf loadDefaultKeybindings))).
  { repeat constructor; simpl; intuition discriminate. }
  assert (S : forallb (fun f => isStruct (snd f)) (fieldsOf loadDefaultKeybindings) = true)
    by reflexivity.
  assert (H : ~ In "help" (map fst (fieldsOf loadDefaultKeybindings))).
  { simpl. intuition discriminate. }
  split; [exact N|]. split; [exact S|].
  destruct (GetKeysForElement_agrees_with_GetAvaliableKeys loadDefaultKeybindings N S)
    as (F & M & _).
  split.
  - assert (Hin : In {| Element := "Help";
                        Keys_ := [{| Keys := ["Esc"]; Runes := [];
                                     Description := "Close help" |}] |}
                     (GetAvaliableKeys loadDefaultKeybindings))
      by (right; left; reflexivity).
    assert (Hne : "Help" <> EmptyString) by discriminate.
    exact (f_equal fst (F _ Hin Hne)).
  - exact (proj2 (M "help" H)).
Defined.

Lemma Contains_looks_a_named_key_up_among_the_keys_witness :
  String.prefix "Rune" "Backspace" = false /\
  Contains {| Keys := ["Backspace"]; Runes := []; Description := "Delete" |}
           "Backspace" = Some false.
Proof.
  assert (H : String.prefix "Rune" "Backspace" = false) by reflexivity.
  split; [exact H|].
  exact (proj1 (Contains_looks_a_named_key_up_among_the_keys
                  {| Keys := ["Backspace"]; Runes := []; Description := "Delete" |}
                  "Backspace" H)).
Defined.

Lemma Contains_compares_one_byte_with_the_runes_witness :
  "Rune[p]" <> "Rune[ ]" /\
  Contains {| Keys := ["Enter"]; Runes := ["p"]; Description := "Peek document" |}
           "Rune[p]" = Some true.
Proof.
  assert (H : "Rune[p]" <> "Rune[ ]") by discriminate.
  split; [exact H|].
  exact (Contains_compares_one_byte_with_the_runes
           {| Keys := ["Enter"]; Runes := ["p"]; Description := "Peek document" |}
           "[" "p" "]" H).
Defined.

Lemma Contains_panics_on_a_short_rune_name_witness :
  Contains {| Keys := []; Runes := ["p"]; Description := "Peek document" |} "Rune"
  = None.
Proof.
  apply (proj2 (Contains_panics_on_a_short_rune_name
                  {| Keys := []; Runes := ["p"]; Description := "Peek document" |}
                  "Rune")).
  split; [discriminate|]. split; [reflexivity | simpl; lia].
Defined.

Lemma default_bindings_are_bound_and_triggered_witness :
  In {| Element := "Help";
        Keys_ := [{| Keys := ["Esc"]; Runes := []; Description := "Close help" |}] |}
     (GetAvaliableKeys loadDefaultKeybindings) /\
  Contains {| Keys := ["Esc"]; Runes := []; Description := "Close help" |} "Esc"
  = Some true.
Proof.
  assert (He : In {| Element := "Help";
                     Keys_ := [{| Keys := ["Esc"]; Runes := [];
                                  Description := "Close help" |}] |}
                  (GetAvaliableKeys loadDefaultKeybindings))
    by (right; left; reflexivity).
  split; [exact He|].
  destruct (default_bindings_are_bound_and_triggered _
              {| Keys := ["Esc"]; Runes := []; Description := "Close help" |}
              He (or_introl eq_refl)) as (_ & K & _).
  exact (K "Esc" (or_introl eq_refl)).
Defined.

Lemma ConvertStrKeyToTcellKey_inverts_the_names_witness :
  NoDup (map snd [(13%Z, "Enter"); (27%Z, "Esc"); (9%Z, "Tab")]) /\
  ConvertStrKeyToTcellKey [(13%Z, "Enter"); (27%Z, "Esc"); (9%Z, "Tab")] "Esc"
  = (27%Z, true) /\
  ConvertStrKeyToTcellKey [(13%Z, "Enter"); (27%Z, "Esc"); (9%Z, "Tab")] "Ctrl+Q"
  = ((-1)%Z, false).
Proof.
  assert (N : NoDup (map snd [(13%Z, "Enter"); (27%Z, "Esc"); (9%Z, "Tab")])).
  { repeat constructor; simpl; intuition discriminate. }
  split; [exact N|].
  destruct (ConvertStrKeyToTcellKey_inverts_the_names _ N) as [F M].
  split.
  - exact (F 27%Z "Esc" (or_intror (or_introl eq_refl))).
  - apply M. simpl. intuition discriminate.
Defined.


End keys_facts.
